(** * report-h2spec-regressions: a shallow embedding and its properties

    The repository is a linear GitHub-action script.  Two variants of the
    script are embedded here:

    - [src/unnamed/part_000], the TypeScript script (module [Ts]);
    - [src/index.mjs], the JavaScript script (module [Mjs]).

    Both share [getCurrentResults], the summary regular expression and the
    comparison of the two failure counts; they differ in the guards of
    [getReferenceResults], in the text of the verdict lines and in what
    happens after the loop.  README.md carries a further revision of the
    TypeScript script, with the same three functions, which creates the
    check run before the loop and updates it afterwards (module [Readme]).

    Modelling conventions.
    - A JavaScript [number] is modelled by [number]: an IEEE double with an
      integer value, [NaN] or an infinity.  Every number the script
      manipulates is produced by [parseInt] and by sums and differences of
      such values, which are rounded as the doubles are.
    - Text is [string] (code units restricted to one byte); the regular
      expression works on [list ascii].
    - Effects (console, comments, created checks, [process.exit], uncaught
      exceptions) are threaded through the small monad [M].
    - The file system and the octokit client are outside the repository:
      their results are inputs of the model ([env]), and calls to the
      client are taken to succeed.  Of the XML parser the model keeps the
      shape of what it returns for the [<testsuite>] elements of a
      document ([iterated]). *)

From Stdlib Require Import ZArith List Ascii String Bool Lia Permutation.
From stdpp Require Import gmap strings.
Import ListNotations.
Local Open Scope string_scope.
Local Open Scope list_scope.
Local Open Scope Z_scope.

(** ** JavaScript numbers with integer values

    A [number] is an IEEE double whose value is an integer, [NaN] or an
    infinity.  [Int z] stands for the double of value [z]; the values the
    script computes are obtained with [round_double], so they are doubles
    (the sign of a zero is not kept: the script never divides). *)

Inductive number : Type :=
| Int (z : Z)
| NaN
| Infinity (negative : bool).

(** The double nearest to the integer [z], ties to the even significand;
    an infinity from [2^1024 - 2^970] on. *)
Definition round_double (z : Z) : number :=
  let a := Z.abs z in
  if a <=? 2 ^ 53 then Int z
  else
    let e := Z.log2 a - 52 in
    let q := a / 2 ^ e in
    let r := a mod 2 ^ e in
    let half := 2 ^ (e - 1) in
    let q' := if r <? half then q
              else if half <? r then q + 1
              else if Z.even q then q else q + 1 in
    if 2 ^ 1024 <=? q' * 2 ^ e then Infinity (z <? 0)
    else Int (Z.sgn z * (q' * 2 ^ e)).

(** [a + b]: the exact sum, rounded. *)
Definition nadd (a b : number) : number :=
  match a with
  | NaN => NaN
  | Int x =>
      match b with
      | Int y => round_double (x + y)
      | NaN => NaN
      | Infinity s => Infinity s
      end
  | Infinity s =>
      match b with
      | Int _ => Infinity s
      | NaN => NaN
      | Infinity s' => if Bool.eqb s s' then Infinity s else NaN
      end
  end.

Definition nneg (a : number) : number :=
  match a with
  | Int x => Int (- x)
  | NaN => NaN
  | Infinity s => Infinity (negb s)
  end.

(** [a - b] *)
Definition nsub (a b : number) : number := nadd a (nneg b).

(** [a > b], [a < b], [a == b] on numbers: every comparison with [NaN] is
    false. *)
Definition ngt (a b : number) : bool :=
  match a, b with
  | Int x, Int y => y <? x
  | Int _, Infinity s => s
  | Infinity s, Int _ => negb s
  | Infinity s, Infinity s' => negb s && s'
  | _, _ => false
  end.

Definition nlt (a b : number) : bool := ngt b a.

Definition neq (a b : number) : bool :=
  match a, b with
  | Int x, Int y => x =? y
  | Infinity s, Infinity s' => Bool.eqb s s'
  | _, _ => false
  end.

(** ** Characters and decimal digits *)

Definition code (c : ascii) : Z := Z.of_N (N_of_ascii c).

(** [\d] *)
Definition is_digit (c : ascii) : bool := (48 <=? code c) && (code c <=? 57).

(** [\w] : [A-Za-z0-9_] *)
Definition is_word (c : ascii) : bool :=
  is_digit c
  || ((65 <=? code c) && (code c <=? 90))
  || ((97 <=? code c) && (code c <=? 122))
  || (code c =? 95).

(** [[*]] *)
Definition is_star (c : ascii) : bool := code c =? 42.

(** White space skipped by [parseInt]: TAB, LF, VT, FF, CR, SP, NBSP. *)
Definition is_space (c : ascii) : bool :=
  ((9 <=? code c) && (code c <=? 13)) || (code c =? 32) || (code c =? 160).

Definition digit_val (c : ascii) : Z := code c - 48.

Definition digit_char (d : Z) : ascii := ascii_of_N (Z.to_N (d + 48)).

(** Value of a run of decimal digits, most significant first. *)
Definition digits_value (ds : list ascii) : Z :=
  fold_left (fun a c => a * 10 + digit_val c) ds 0.

Fixpoint take_while (p : ascii -> bool) (s : list ascii) : list ascii :=
  match s with
  | c :: s' => if p c then c :: take_while p s' else []
  | [] => []
  end.

Fixpoint drop_while (p : ascii -> bool) (s : list ascii) : list ascii :=
  match s with
  | c :: s' => if p c then drop_while p s' else s
  | [] => []
  end.

(** ** [parseInt(s, 10)]

    Leading white space is skipped, one sign is accepted, then the longest
    run of decimal digits is read; with no digit the result is [NaN],
    otherwise the double nearest to the integer the digits denote.
    Whatever follows the digits is ignored. *)
Definition parseInt (s : list ascii) : number :=
  let s1 := drop_while is_space s in
  let '(sign, s2) :=
    match s1 with
    | c :: r => if (code c =? 45) then (-1, r)
                else if (code c =? 43) then (1, r) else (1, s1)
    | [] => (1, s1)
    end in
  match take_while is_digit s2 with
  | [] => NaN
  | ds => round_double (sign * digits_value ds)
  end.

(** [parseInt(v, 10)] for a value that is a string or [undefined]:
    [undefined] is first converted to the string ["undefined"]. *)
Definition parseInt_value (v : option string) : number :=
  parseInt (list_ascii_of_string (default "undefined" v)).

(** ** [Number::toString] and template-literal interpolation *)

Fixpoint digits_of (fuel : nat) (n : Z) : list ascii :=
  match fuel with
  | O => []
  | S f => if n <? 10 then [digit_char n]
           else digits_of f (n / 10) ++ [digit_char (n mod 10)]
  end.

(** Decimal digits of a non-negative integer. *)
Definition decimal (n : Z) : list ascii :=
  digits_of (S (Z.to_nat (Z.log2 n))) n.

Definition number_eqb (a b : number) : bool :=
  match a, b with
  | Int x, Int y => x =? y
  | NaN, NaN => true
  | Infinity s, Infinity s' => Bool.eqb s s'
  | _, _ => false
  end.

(** The shortest digits that denote the double [a]: the least [k], from
    [k] on, for which some [s] of [k] digits has [s * 10^(n-k)] rounding to
    [a]; of two such [s], the one nearer to [a], the even one at a tie. *)
Fixpoint shortest_digits (fuel : nat) (a n k : Z) : option (Z * Z) :=
  match fuel with
  | O => None
  | S f =>
      if n <? k then None
      else
        let e := n - k in
        let lo := a / 10 ^ e in
        let hi := lo + 1 in
        let ok s := (10 ^ (k - 1) <=? s) && (s <? 10 ^ k)
                    && number_eqb (round_double (s * 10 ^ e)) (Int a) in
        match ok lo, ok hi with
        | true, true =>
            let dlo := a - lo * 10 ^ e in
            let dhi := hi * 10 ^ e - a in
            if dlo <? dhi then Some (lo, k)
            else if dhi <? dlo then Some (hi, k)
            else if Z.even lo then Some (lo, k) else Some (hi, k)
        | true, false => Some (lo, k)
        | false, true => Some (hi, k)
        | false, false => shortest_digits f a n (k + 1)
        end
  end.

(** [Number::toString] of a non-negative integer double: all its digits
    up to [2^53]; above, the shortest digits that denote it, followed by
    zeros while the number has at most 21 digits and in exponent notation
    beyond. *)
Definition show_nat (a : Z) : list ascii :=
  if a <=? 2 ^ 53 then decimal a
  else
    let len := Z.of_nat (length (decimal a)) in
    let '(s, k, n) :=
      if number_eqb (round_double (10 ^ len)) (Int a) then (1, 1, len + 1)
      else match shortest_digits 17 a len 1 with
           | Some (s, k) => (s, k, len)
           | None => (a, len, len)
           end in
    if n <=? 21 then decimal s ++ repeat "0"%char (Z.to_nat (n - k))
    else
      match decimal s with
      | [] => []
      | d :: ds =>
          d :: (if k =? 1 then [] else "."%char :: ds)
          ++ list_ascii_of_string "e+" ++ decimal (n - 1)
      end.

Definition number_to_chars (x : number) : list ascii :=
  match x with
  | Int z => if z <? 0 then "-"%char :: show_nat (- z) else show_nat z
  | NaN => list_ascii_of_string "NaN"
  | Infinity s =>
      list_ascii_of_string (if s then "-Infinity" else "Infinity")
  end.

Definition number_to_string (x : number) : string :=
  string_of_list_ascii (number_to_chars x).

(** ** Results *)

Record Results : Type := mkResults {
  total : number;
  passed : number;
  failed : number;
  skipped : number
}.

(** ** Report Aggregator: [getCurrentResults]

    A test-group node is the object the XML parser builds for one
    [<testsuite>] element: a finite map from attribute keys (["@_tests"],
    ...) to attribute strings. *)

Definition add_testsuite (results : Results) (ts : gmap string string)
  : Results :=
  let tests := parseInt_value (ts !! "@_tests") in
  let failures := parseInt_value (ts !! "@_failures") in
  let errors := parseInt_value (ts !! "@_errors") in
  let skipped' := parseInt_value (ts !! "@_skipped") in
  {| total := nadd (total results) tests;
     passed := nadd (passed results)
                 (nsub tests (nadd (nadd failures errors) skipped'));
     failed := nadd (failed results) (nadd failures errors);
     skipped := nadd (skipped results) skipped' |}.

Definition zero_results : Results :=
  {| total := Int 0; passed := Int 0; failed := Int 0; skipped := Int 0 |}.

(** The loop of [getCurrentResults] over [doc.testsuites.testsuite]. *)
Definition aggregate (testsuite : list (gmap string string)) : Results :=
  fold_left add_testsuite testsuite zero_results.

(** ** Regular expressions: the fragment the summary pattern uses

    The matcher follows the backtracking semantics of ECMAScript: a pattern
    is matched against the rest of the input with a continuation for what
    follows it; a greedy quantifier tries the longest repetition first and
    gives characters back while the continuation fails. *)

Inductive regex : Type :=
| Lit (cs : list ascii)            (* a run of literal characters *)
| Class (p : ascii -> bool)        (* one character of a class: [*] *)
| Many1 (p : ascii -> bool)        (* class+, greedy: \d+ and \w+ *)
| Group (n : nat) (r : regex)      (* the n-th capturing group *)
| Seq (r1 r2 : regex).

(** The array returned by [exec]: index 0 is the whole match, index [n] the
    text of group [n] ([None] for [undefined]). *)
Definition captures : Type := list (option (list ascii)).

Fixpoint match_lit (cs s : list ascii) : option (list ascii) :=
  match cs, s with
  | [], _ => Some s
  | c :: cs', d :: s' => if Ascii.eqb c d then match_lit cs' s' else None
  | _ :: _, [] => None
  end.

(** Zero or more characters of [p], longest first. *)
Fixpoint greedy {A : Type} (p : ascii -> bool) (s : list ascii)
    (k : list ascii -> option A) : option A :=
  match s with
  | c :: s' =>
      if p c then
        match greedy p s' k with
        | Some r => Some r
        | None => k s
        end
      else k s
  | [] => k s
  end.

(** The text consumed between input [s] and its suffix [rest]. *)
Definition consumed (s rest : list ascii) : list ascii :=
  firstn (length s - length rest) s.

Fixpoint rmatch (r : regex) (s : list ascii) (caps : captures)
    (k : list ascii -> captures -> option captures) : option captures :=
  match r with
  | Lit cs =>
      match match_lit cs s with
      | Some rest => k rest caps
      | None => None
      end
  | Class p =>
      match s with
      | c :: s' => if p c then k s' caps else None
      | [] => None
      end
  | Many1 p =>
      match s with
      | c :: s' => if p c then greedy p s' (fun rest => k rest caps) else None
      | [] => None
      end
  | Group n r' =>
      rmatch r' s caps
        (fun rest caps' => k rest (<[n := Some (consumed s rest)]> caps'))
  | Seq r1 r2 =>
      rmatch r1 s caps (fun rest caps' => rmatch r2 rest caps' k)
  end.

(** One attempt at the current position, with [groups] capturing groups. *)
Definition match_here (groups : nat) (r : regex) (s : list ascii)
  : option captures :=
  rmatch r s (replicate (S groups) None)
    (fun rest caps => Some (<[0%nat := Some (consumed s rest)]> caps)).

(** [r.exec(s)] for a regex whose [lastIndex] is 0: the match at the
    leftmost position where one exists, [None] for [null]. *)
Fixpoint exec (groups : nat) (r : regex) (s : list ascii) : option captures :=
  match match_here groups r s with
  | Some m => Some m
  | None =>
      match s with
      | [] => None
      | _ :: s' => exec groups r s'
      end
  end.

Infix "+++" := Seq (at level 60, right associativity).

Definition chars (s : string) : list ascii := list_ascii_of_string s.

(** [[*][*]] *)
Definition stars : regex := Class is_star +++ Class is_star.

(** The regex literal of [getReferenceResults]. *)
Definition regex_summary : regex :=
  stars +++ Group 1 (Many1 is_digit) +++ stars
  +++ Lit (chars " tests were completed in ")
  +++ stars +++ Group 2 (Many1 is_word) +++ Lit (chars "ms") +++ stars
  +++ Lit (chars " with ")
  +++ stars +++ Group 3 (Many1 is_digit) +++ stars
  +++ Lit (chars " passed, ")
  +++ stars +++ Group 4 (Many1 is_digit) +++ stars
  +++ Lit (chars " failed and ")
  +++ stars +++ Group 5 (Many1 is_digit) +++ stars
  +++ Lit (chars " skipped").

(** The same literal printed by [`${regex}`]. *)
Definition regex_source : string :=
  "/[*][*](\d+)[*][*] tests were completed in [*][*](\w+)ms[*][*] with [*][*](\d+)[*][*] passed, [*][*](\d+)[*][*] failed and [*][*](\d+)[*][*] skipped/g".

(** [parseInt(m[i], 10)] *)
Definition parseInt_group (m : captures) (i : nat) : number :=
  parseInt (match m !! i with
            | Some (Some txt) => txt
            | _ => chars "undefined"
            end).

(** The record built from a successful match. *)
Definition results_of_match (m : captures) : Results :=
  {| total := parseInt_group m 1;
     passed := parseInt_group m 3;
     failed := parseInt_group m 4;
     skipped := parseInt_group m 5 |}.

(** The regex is created afresh by each call, so [exec] starts at 0. *)
Definition extract (summary : string) : option Results :=
  option_map results_of_match (exec 5 regex_summary (chars summary)).

(** ** Effects: console, published output, [process.exit], exceptions *)

Inductive js_error : Type :=
| TypeError (msg : string)
| ReferenceError (msg : string)
| Error (msg : string).

(** How a computation ends: with a value, with [process.exit(code)], or
    with an exception nobody catches. *)
Inductive completion (A : Type) : Type :=
| Normal (a : A)
| Exit (code : Z)
| Uncaught (e : js_error).
Arguments Normal {A} a.
Arguments Exit {A} code.
Arguments Uncaught {A} e.

(** What the run has shown to the outside so far. *)
Record world : Type := mkWorld {
  console : list string;                   (* console.log, oldest first *)
  comments : list (option Z * string);     (* issues.createComment *)
  created : list (string * string)         (* checks.create: conclusion, summary *)
}.

Definition empty_world : world :=
  {| console := []; comments := []; created := [] |}.

Definition M (A : Type) : Type := world -> completion A * world.

Definition ret {A : Type} (a : A) : M A := fun w => (Normal a, w).

Definition bind {A B : Type} (m : M A) (f : A -> M B) : M B :=
  fun w =>
    match m w with
    | (Normal a, w') => f a w'
    | (Exit c, w') => (Exit c, w')
    | (Uncaught e, w') => (Uncaught e, w')
    end.

Notation "x <- m ;; k" := (bind m (fun x => k))
  (at level 100, m at next level, right associativity).
Notation "m ;;; k" := (bind m (fun _ => k))
  (at level 100, right associativity).

Definition console_log (line : string) : M unit :=
  fun w => (Normal tt,
            {| console := console w ++ [line];
               comments := comments w; created := created w |}).

Definition process_exit {A : Type} (c : Z) : M A := fun w => (Exit c, w).

Definition throw {A : Type} (e : js_error) : M A := fun w => (Uncaught e, w).

Definition createComment (issue_number : option Z) (body : string) : M unit :=
  fun w => (Normal tt,
            {| console := console w;
               comments := comments w ++ [(issue_number, body)];
               created := created w |}).

Definition createCheck (conclusion summary : string) : M unit :=
  fun w => (Normal tt,
            {| console := console w; comments := comments w;
               created := created w ++ [(conclusion, summary)] |}).

(** The status the process ends with: 0 when the script runs to its end,
    the argument of [process.exit], 1 for an uncaught exception. *)
Definition exit_status {A : Type} (c : completion A) : Z :=
  match c with
  | Normal _ => 0
  | Exit code => code
  | Uncaught _ => 1
  end.

(** ** Strings of the runtime *)

Definition hex_digit (d : Z) : ascii :=
  if d <? 10 then digit_char d else ascii_of_N (Z.to_N (d + 87)).

Definition backslash : ascii := ascii_of_N 92.

(** [JSON.stringify] of a string: quotes, with the quote, the backslash and
    the control characters escaped. *)
Fixpoint json_escape (s : list ascii) : list ascii :=
  match s with
  | [] => []
  | c :: s' =>
      (if code c =? 34 then [backslash; c]
       else if code c =? 92 then chars "\\"
       else if code c =? 8 then chars "\b"
       else if code c =? 12 then chars "\f"
       else if code c =? 10 then chars "\n"
       else if code c =? 13 then chars "\r"
       else if code c =? 9 then chars "\t"
       else if code c <? 32 then
         chars "\u00" ++ [hex_digit (code c / 16); hex_digit (code c mod 16)]
       else [c]) ++ json_escape s'
  end.

Definition JSON_stringify (s : string) : string :=
  string_of_list_ascii
    ([ascii_of_N 34] ++ json_escape (chars s) ++ [ascii_of_N 34]).

Definition newline : string := String (ascii_of_N 10) "".

(** [lines.join(sep)] *)
Fixpoint join (sep : string) (lines : list string) : string :=
  match lines with
  | [] => ""
  | [x] => x
  | x :: rest => x +:+ sep +:+ join sep rest
  end.

(** [`${v}`] for a value that is a string or [undefined]. *)
Definition show_value (v : option string) : string := default "undefined" v.

(** ** Inputs of a run *)

(** [check.output.summary]: a string, [null] or [undefined]. *)
Inductive js_text : Type :=
| Str (s : string)
| Null
| Undefined.

(** [!v] *)
Definition falsy (v : js_text) : bool :=
  match v with
  | Str s => String.eqb s ""
  | Null | Undefined => true
  end.

(** The string a value is converted to where a string is expected. *)
Definition to_string (v : js_text) : string :=
  match v with
  | Str s => s
  | Null => "null"
  | Undefined => "undefined"
  end.

Record check_run : Type := mkCheck {
  name : string;
  summary : js_text
}.

(** ** Documents

    What the script iterates over is [doc.testsuites.testsuite] of the
    object built by the XML parser, which is configured with
    [ignoreAttributes: false] and nothing else.  Modelled from the
    behaviour of that parser (it is not part of the sources): an element
    without attributes and without content becomes the empty string, any
    other element an object with its attributes under "@_" keys, and the
    children of one name become an array only when there are at least two
    of them.  Elements with text content are outside this model. *)

Record element : Type := mkElement {
  attributes : gmap string string;
  has_children : bool
}.

Definition not_iterable : js_error :=
  TypeError "doc.testsuites.testsuite is not iterable".

(** The iteration of [for (const ts of doc.testsuites.testsuite)] for a
    document whose root holds the given [<testsuite>] elements: no element
    gives [undefined] and one element with attributes or children gives an
    object, neither of which can be iterated; one bare element gives the
    empty string, which is iterated zero times; two or more give the array
    of the elements, whose attribute look-ups are those of their
    attributes. *)
Definition iterated (els : list element)
  : js_error + list (gmap string string) :=
  match els with
  | [] => inl not_iterable
  | [el] =>
      if has_children el || negb (bool_decide (attributes el = ∅))
      then inl not_iterable
      else inr []
  | _ => inr (map attributes els)
  end.

(** What the collaborators hand to the script: for each report path, the
    [<testsuite>] elements under the root of the document in that file, or
    the exception raised while reading or parsing it; the check runs listed
    for [main]; the number of the pull request, if any. *)
Record env : Type := mkEnv {
  documents : string -> js_error + list element;
  check_runs : list check_run;
  issue_number : option Z
}.

(** What the loop of [getCurrentResults] gets for a report path: the
    groups it iterates over, or the exception of the read, of the parser or
    of the iteration. *)
Definition reports (e : env) (junitPath : string)
  : js_error + list (gmap string string) :=
  match documents e junitPath with
  | inl err => inl err
  | inr els => iterated els
  end.

Definition getCurrentResults (e : env) (junitPath : string) : M Results :=
  match reports e junitPath with
  | inl err => throw err
  | inr testsuite => ret (aggregate testsuite)
  end.

(** [checks.data.check_runs.find((c) => c.name == checkName)] *)
Definition find_check (e : env) (checkName : string) : option check_run :=
  List.find (fun c => String.eqb (name c) checkName) (check_runs e).

(** The accumulators of the suite loop. *)
Record loop_state : Type := mkLoop {
  regressionsDetected : bool;
  outputLines : list string
}.

Definition initial_state : loop_state :=
  {| regressionsDetected := false; outputLines := [] |}.

(** The [diff] of the no-regression branch; [None] is the [undefined] left
    when none of the three tests holds. *)
Definition diff_text (current reference : Results) : option string :=
  if neq (failed current) (failed reference) then Some "unchanged"
  else if nlt (failed current) (failed reference) then
    Some ("-" +:+ number_to_string (nsub (failed reference) (failed current)))
  else if ngt (failed current) (failed reference) then
    Some ("+" +:+ number_to_string (nsub (failed current) (failed reference)))
  else None.

Definition regression_line (suite : string) (current reference : Results)
  : string :=
  "Regression detected in " +:+ suite +:+ ": "
  +:+ number_to_string (failed current) +:+ " > "
  +:+ number_to_string (failed reference).

Definition no_regression_line (suite : string) (current reference : Results)
  : string :=
  "No regression in " +:+ suite +:+ ": failed count "
  +:+ show_value (diff_text current reference) +:+ " ("
  +:+ number_to_string (passed current) +:+ " passed, "
  +:+ number_to_string (failed current) +:+ " failed)".

(** ** The TypeScript script, [src/unnamed/part_000] *)

Module Ts.

Section Script.
Variable e : env.

Definition getReferenceResults (checkName : string) : M Results :=
  match find_check e checkName with
  | None =>
      console_log ("No " +:+ JSON_stringify checkName +:+ " check found") ;;;
      process_exit 0
  | Some check =>
      if falsy (summary check) then
        console_log ("No summary found for check " +:+ checkName) ;;;
        process_exit 1
      else
        match exec 5 regex_summary (chars (to_string (summary check))) with
        | None =>
            console_log "Output summary didn't match expected structure" ;;;
            console_log ("Structure was: " +:+ regex_source) ;;;
            console_log ("Output was:" +:+ newline
                         +:+ to_string (summary check)) ;;;
            process_exit 1
        | Some m => ret (results_of_match m)
        end
  end.

(** The comparison of one suite: the body of the loop after both records
    have been obtained. *)
Definition compare (suite : string) (current reference : Results)
    (st : loop_state) : loop_state :=
  if ngt (failed current) (failed reference) then
    {| regressionsDetected := true;
       outputLines :=
         outputLines st ++ [regression_line suite current reference] |}
  else
    {| regressionsDetected := regressionsDetected st;
       outputLines :=
         outputLines st ++ [no_regression_line suite current reference] |}.

Fixpoint loop (suites : list string) (st : loop_state) : M loop_state :=
  match suites with
  | [] => ret st
  | suite :: rest =>
      current <- getCurrentResults e ("./" +:+ suite +:+ ".xml") ;;
      reference <- getReferenceResults suite ;;
      loop rest (compare suite current reference st)
  end.

(** The script from the suite loop to its end. *)
Definition main (suites : list string) : M unit :=
  st <- loop suites initial_state ;;
  let comment := join newline (outputLines st) in
  match issue_number e with
  | Some n =>
      console_log ("Leaving comment on PR #" +:+ number_to_string (Int n)) ;;;
      createComment (Some n) comment
  | None =>
      console_log ("Not a PR, not leaving a comment. Comment would've been:"
                   +:+ newline +:+ comment)
  end ;;;
  createCheck (if regressionsDetected st then "failure" else "success")
              (join newline (outputLines st)) ;;;
  if regressionsDetected st then process_exit 1 else ret tt.

End Script.

End Ts.

(** ** The JavaScript script, [src/index.mjs] *)

Module Mjs.

Section Script.
Variable e : env.

(** No guard on the summary: the value is converted to a string by [exec],
    and [m[1]] on a [null] match raises a [TypeError]. *)
Definition getReferenceResults (checkName : string) : M Results :=
  match find_check e checkName with
  | None =>
      console_log ("No " +:+ JSON_stringify checkName +:+ " check found") ;;;
      process_exit 0
  | Some check =>
      match exec 5 regex_summary (chars (to_string (summary check))) with
      | None =>
          throw (TypeError "Cannot read properties of null (reading '1')")
      | Some m => ret (results_of_match m)
      end
  end.

(** [spec.checkName]: no binding named [spec] exists in the module, so
    evaluating the identifier raises a [ReferenceError]. *)
Definition spec_checkName : M string :=
  throw (ReferenceError "spec is not defined").

Definition compare (current reference : Results) (st : loop_state)
  : M loop_state :=
  if ngt (failed current) (failed reference) then
    checkName <- spec_checkName ;;
    ret {| regressionsDetected := true;
           outputLines :=
             outputLines st ++ [regression_line checkName current reference] |}
  else
    checkName <- spec_checkName ;;
    ret {| regressionsDetected := regressionsDetected st;
           outputLines :=
             outputLines st
             ++ [no_regression_line checkName current reference] |}.

Fixpoint loop (suites : list string) (st : loop_state) : M loop_state :=
  match suites with
  | [] => ret st
  | suite :: rest =>
      current <- getCurrentResults e ("target/h2spec-" +:+ suite +:+ ".xml") ;;
      reference <- getReferenceResults suite ;;
      st' <- compare current reference st ;;
      loop rest st'
  end.

Definition main (suites : list string) : M unit :=
  st <- loop suites initial_state ;;
  if regressionsDetected st then process_exit 1
  else
    let comment := join newline (outputLines st) in
    console_log ("Leaving comment on PR #"
                 +:+ show_value (option_map (fun n => number_to_string (Int n))
                                            (issue_number e))) ;;;
    createComment (issue_number e) comment.

End Script.

End Mjs.

(** * Vocabulary of the properties *)

(** A group whose four attributes are read as integers. *)
Definition numeric_group (ts : gmap string string) (t f er s : Z) : Prop :=
  parseInt_value (ts !! "@_tests") = Int t
  /\ parseInt_value (ts !! "@_failures") = Int f
  /\ parseInt_value (ts !! "@_errors") = Int er
  /\ parseInt_value (ts !! "@_skipped") = Int s.

(** A well-formed group: four non-negative integers, the failures, errors
    and skipped tests being among the tests. *)
Definition well_formed_group (ts : gmap string string) : Prop :=
  exists t f er s,
    numeric_group ts t f er s
    /\ 0 <= t /\ 0 <= f /\ 0 <= er /\ 0 <= s /\ f + er + s <= t.

(** The four counters are integers and the total is the sum of the others. *)
Definition balanced (r : Results) : Prop :=
  exists t p f s,
    total r = Int t /\ passed r = Int p /\ failed r = Int f
    /\ skipped r = Int s
    /\ 0 <= p /\ 0 <= f /\ 0 <= s /\ t = p + f + s.

(** Attribute [key] of the group is missing or has no leading integer. *)
Definition unreadable (key : string) (ts : gmap string string) : Prop :=
  parseInt_value (ts !! key) = NaN.

(** Both records of [suite] are obtained: the report is read and the
    reference is extracted, without ending the run. *)
Definition compared (e : env) (suite : string) (current reference : Results)
  : Prop :=
  forall w,
    getCurrentResults e ("./" +:+ suite +:+ ".xml") w = (Normal current, w)
    /\ Ts.getReferenceResults e suite w = (Normal reference, w).

(** The decision of the comparison for one suite. *)
Definition flagged (suite : string) (current reference : Results) : bool :=
  regressionsDetected (Ts.compare suite current reference initial_state).

(** The accumulators after comparing the suites of a list in order, the
    records of each suite being given by [cur] and [ref]. *)
Definition compare_all (cur ref : string -> Results) (suites : list string)
    (st : loop_state) : loop_state :=
  fold_left (fun st suite => Ts.compare suite (cur suite) (ref suite) st)
            suites st.

Definition regressed (cur ref : string -> Results) (suite : string) : bool :=
  ngt (failed (cur suite)) (failed (ref suite)).

(** The diagnostics of the TypeScript script for a check run whose summary
    is absent or does not match. *)
Definition summary_diagnostics (suite : string) (check : check_run)
  : list string :=
  if falsy (summary check) then ["No summary found for check " +:+ suite]
  else ["Output summary didn't match expected structure";
        "Structure was: " +:+ regex_source;
        "Output was:" +:+ newline +:+ to_string (summary check)].

(** ** Sample inputs *)

Definition group (t f er s : string) : gmap string string :=
  {[ "@_tests" := t; "@_failures" := f; "@_errors" := er; "@_skipped" := s ]}.

(** A [<testsuite>] element with the given attributes and test cases
    inside, one with attributes only, and one with nothing at all. *)
Definition suite_element (ts : gmap string string) : element :=
  {| attributes := ts; has_children := true |}.

Definition leaf (t f er s : string) : element :=
  {| attributes := group t f er s; has_children := false |}.

Definition bare : element := {| attributes := ∅; has_children := false |}.

(** An environment in which every report path holds the document with the
    given elements, and [main] has the given check runs. *)
Definition document_env (els : list element) (runs : list check_run) : env :=
  {| documents := fun _ => inr els;
     check_runs := runs;
     issue_number := None |}.

Definition sample_report : list (gmap string string) :=
  [group "90" "20" "4" "0"; group "4" "0" "0" "0"].

(** The second group has no readable [tests] attribute. *)
Definition broken_report : list (gmap string string) :=
  [group "7" "3" "2" "1"; group "many" "1" "0" "0"].

Definition sample_summary : string :=
  "**94** tests were completed in **NaNms** with **72** passed, **22** failed and **0** skipped".

Definition empty_summary : string :=
  "**0** tests were completed in **3ms** with **0** passed, **0** failed and **0** skipped".

(** The example of the comment in [getReferenceResults]. *)
Definition example_summary : string :=
  "**94** tests were completed in **NaNms** with **70** passed, **24** failed and **0** skipped".

(** The sentence inside other text, followed by a second sentence. *)
Definition embedded_summary : string :=
  "h2spec: **94** tests were completed in **12ms** with **70** passed, **24** failed and **0** skipped; before: **90** tests were completed in **9ms** with **60** passed, **30** failed and **0** skipped".

Definition sample_env : env :=
  {| documents := fun path =>
       if String.eqb path "./h2spec.xml"
       then inr (map suite_element sample_report)
       else if String.eqb path "target/h2spec-h2spec.xml"
       then inr (map suite_element sample_report)
       else if String.eqb path "./broken.xml"
       then inr (map suite_element broken_report)
       else if String.eqb path "./quiet.xml" then inr [bare]
       else if String.eqb path "./malformed.xml" then inr [bare]
       else if String.eqb path "target/h2spec-malformed.xml" then inr [bare]
       else if String.eqb path "./silent.xml" then inr [bare]
       else if String.eqb path "target/h2spec-silent.xml" then inr [bare]
       else if String.eqb path "./fresh.xml" then inr [bare]
       else inl (Error "ENOENT: no such file or directory");
     check_runs :=
       [ {| name := "h2spec"; summary := Str sample_summary |};
         {| name := "quiet"; summary := Str empty_summary |};
         {| name := "malformed"; summary := Str "h2spec run cancelled" |};
         {| name := "silent"; summary := Null |};
         {| name := "example"; summary := Str example_summary |};
         {| name := "embedded"; summary := Str embedded_summary |} ];
     issue_number := Some 7 |}.

Definition sample_current (suite : string) : Results :=
  if String.eqb suite "h2spec"
  then {| total := Int 94; passed := Int 70; failed := Int 24; skipped := Int 0 |}
  else zero_results.

Definition sample_reference (suite : string) : Results :=
  if String.eqb suite "h2spec"
  then {| total := Int 94; passed := Int 72; failed := Int 22; skipped := Int 0 |}
  else zero_results.

(** ** The summary sentence *)

(** The sentence with the given texts in its five slots. *)
Definition sentence (t d p f s : list ascii) : list ascii :=
  (chars "**" ++ t ++ chars "** tests were completed in **" ++ d
   ++ chars "ms** with **" ++ p ++ chars "** passed, **" ++ f
   ++ chars "** failed and **" ++ s ++ chars "** skipped")%list.


Definition all_digits (ds : list ascii) : Prop :=
  ds <> [] /\ Forall (fun c => is_digit c = true) ds.

Definition word_token (d : list ascii) : Prop :=
  d <> [] /\ Forall (fun c => is_word c = true) d.

(** The slots hold what the pattern accepts in them. *)
Definition well_shaped (t d p f s : list ascii) : Prop :=
  all_digits t /\ word_token d /\ all_digits p /\ all_digits f
  /\ all_digits s.

(** The sentence, with some texts in its slots, starts at index [i] of
    [text]. *)
Definition occurs_at (text : list ascii) (i : nat) : Prop :=
  exists t d p f s pre post,
    well_shaped t d p f s
    /\ text = (pre ++ sentence t d p f s ++ post)%list
    /\ length pre = i.

(** A text on which a run of [p] cannot go on. *)
Definition stops (p : ascii -> bool) (s : list ascii) : Prop :=
  match s with
  | [] => True
  | c :: _ => p c = false
  end.

(** The array [exec] returns for a match of the sentence. *)
Definition match_array (t d p f s : list ascii) : captures :=
  [Some (sentence t d p f s); Some t; Some d; Some p; Some f; Some s].

(** * Further vocabulary *)

(** Field by field sum of two records. *)
Definition results_plus (a b : Results) : Results :=
  {| total := nadd (total a) (total b);
     passed := nadd (passed a) (passed b);
     failed := nadd (failed a) (failed b);
     skipped := nadd (skipped a) (skipped b) |}.

(** All four attributes of the group are read as integers, of any sign. *)
Definition readable_group (ts : gmap string string) : Prop :=
  exists t f er s, numeric_group ts t f er s.

(** [total == passed + failed + skipped], with the comparison and the
    sums of JavaScript numbers. *)
Definition adds_up (r : Results) : bool :=
  neq (total r) (nadd (nadd (passed r) (failed r)) (skipped r)).

(** The line the TypeScript loop records for one suite. *)
Definition verdict_line (suite : string) (current reference : Results)
  : string :=
  if ngt (failed current) (failed reference)
  then regression_line suite current reference
  else no_regression_line suite current reference.

(** The sample report with its groups in the other order. *)
Definition swapped_env : env :=
  {| documents := fun _ => inr (map suite_element (rev sample_report));
     check_runs := [];
     issue_number := None |}.

(** A report whose only group has no readable [failures] attribute. *)
Definition unreadable_failures_report : list (gmap string string) :=
  [group "7" "some" "0" "0"].

(** The text published for a list of compared suites. *)
Definition report_body (cur ref : string -> Results) (suites : list string)
  : string :=
  join newline (map (fun s => verdict_line s (cur s) (ref s)) suites).

(** The world after the TypeScript script has published its report. *)
Definition published (e : env) (failure : bool) (body : string) (w : world)
  : world :=
  {| console :=
       console w ++
       [match issue_number e with
        | Some n => "Leaving comment on PR #" +:+ number_to_string (Int n)
        | None => "Not a PR, not leaving a comment. Comment would've been:"
                  +:+ newline +:+ body
        end];
     comments :=
       match issue_number e with
       | Some n => comments w ++ [(Some n, body)]
       | None => comments w
       end;
     created :=
       created w ++ [(if failure then "failure" else "success", body)] |}.

(** ** The start of the scripts *)

(** [s.split(sep)] for a one-character separator, on code units. *)
Fixpoint split_on (sep : ascii) (s : list ascii) : list (list ascii) :=
  match s with
  | [] => [[]]
  | c :: s' =>
      if Ascii.eqb c sep then [] :: split_on sep s'
      else match split_on sep s' with
           | piece :: pieces => (c :: piece) :: pieces
           | [] => [[c]]
           end
  end.

Definition split (s : string) (sep : ascii) : list string :=
  map string_of_list_ascii (split_on sep (chars s)).

(** [src/unnamed/part_000] from its first line: [githubToken] and
    [suitesInput] are what [core.getInput] returns for "github-token" and
    "suites" (the empty string for an input that is not set). *)
Definition run_ts (e : env) (githubToken suitesInput : string) : M unit :=
  if String.eqb githubToken "" then
    console_log "No github-token input provided, exiting" ;;;
    process_exit 1
  else Ts.main e (split suitesInput ","%char).

(** [src/index.mjs] from its first line. *)
Definition run_mjs (e : env) (githubToken suitesInput : string) : M unit :=
  if String.eqb githubToken "" then
    console_log "No github-token input provided, exiting" ;;;
    process_exit 1
  else Mjs.main e (split suitesInput ","%char).

(** The text contains no comma. *)
Definition comma_free (s : string) : Prop :=
  Forall (fun c => Ascii.eqb c ","%char = false) (chars s).

(** Check runs of [main] after a re-run: two of them are named "h2spec". *)
Definition rerun_env : env :=
  {| documents := fun _ => inr [bare];
     check_runs :=
       [ {| name := "build"; summary := Null |};
         {| name := "h2spec"; summary := Str sample_summary |};
         {| name := "h2spec"; summary := Str example_summary |} ];
     issue_number := None |}.

(** ** The script carried by [src/README.md]

    It has [getCurrentResults] and [getReferenceResults] of
    [src/unnamed/part_000], word for word; it creates the check run before
    the loop and completes it afterwards, writes each verdict line through
    [core.error] or [core.info], and posts no comment. *)

Module Readme.

(** Where a line is written: [console.log], [core.info], [core.error]. *)
Inductive channel : Type :=
| Log
| Info
| Err.

Record state : Type := mkState {
  out : list (channel * string);
  started : list string;                 (* checks.create: head_sha *)
  completed : list (Z * string * string) (* checks.update: id, conclusion,
                                            summary *)
}.

Definition empty_state : state :=
  {| out := []; started := []; completed := [] |}.

Definition RM (A : Type) : Type := state -> completion A * state.

Definition rret {A : Type} (a : A) : RM A := fun s => (Normal a, s).

Definition rbind {A B : Type} (m : RM A) (f : A -> RM B) : RM B :=
  fun s =>
    match m s with
    | (Normal a, s') => f a s'
    | (Exit c, s') => (Exit c, s')
    | (Uncaught err, s') => (Uncaught err, s')
    end.

Notation "x <~ m ;; k" := (rbind m (fun x => k))
  (at level 100, m at next level, right associativity).
Notation "m ~;; k" := (rbind m (fun _ => k))
  (at level 100, right associativity).

Definition emit (ch : channel) (line : string) : RM unit :=
  fun s => (Normal tt,
            {| out := out s ++ [(ch, line)];
               started := started s; completed := completed s |}).

Definition rthrow {A : Type} (err : js_error) : RM A :=
  fun s => (Uncaught err, s).

(** A computation of the shared functions, which only write to the
    console: its lines are appended as [Log] lines. *)
Definition lift {A : Type} (m : M A) : RM A :=
  fun s =>
    let '(c, w) := m empty_world in
    (c, {| out := out s ++ map (fun line => (Log, line)) (console w);
           started := started s; completed := completed s |}).

Definition checks_create (head_sha : string) : RM unit :=
  fun s => (Normal tt,
            {| out := out s; started := started s ++ [head_sha];
               completed := completed s |}).

Definition checks_update (check_run_id : Z) (conclusion summary : string)
  : RM unit :=
  fun s => (Normal tt,
            {| out := out s; started := started s;
               completed :=
                 completed s ++ [(check_run_id, conclusion, summary)] |}).

(** What the script reads of [github.context]: [workflow_run] is
    [payload.workflow_run] as the pair of [head_commit.id] and [id],
    [pull_request] is [payload.pull_request.head.sha]. *)
Record context : Type := mkContext {
  eventName : string;
  workflow_run : option (string * Z);
  pull_request : option string;
  sha : string;
  runId : Z
}.

Definition getCheckRunContext (ctx : context) : RM (string * Z) :=
  if String.eqb (eventName ctx) "workflow_run" then
    emit Info "Action was triggered by workflow_run: using SHA and RUN_ID from triggering workflow" ~;;
    match workflow_run ctx with
    | None =>
        rthrow (Error "Event of type 'workflow_run' is missing 'workflow_run' field")
    | Some (head_commit_id, id) => rret (head_commit_id, id)
    end
  else
    match pull_request ctx with
    | Some head_sha =>
        emit Info ("Action was triggered by " +:+ eventName ctx
                   +:+ ": using SHA from head of source branch") ~;;
        rret (head_sha, runId ctx)
    | None => rret (sha ctx, runId ctx)
    end.

Section Script.
Variable e : env.

Definition compare (suite : string) (current reference : Results)
    (st : loop_state) : RM loop_state :=
  if ngt (failed current) (failed reference) then
    emit Err (regression_line suite current reference) ~;;
    rret {| regressionsDetected := true;
            outputLines :=
              outputLines st ++ [regression_line suite current reference] |}
  else
    emit Info (no_regression_line suite current reference) ~;;
    rret {| regressionsDetected := regressionsDetected st;
            outputLines :=
              outputLines st
              ++ [no_regression_line suite current reference] |}.

Fixpoint loop (suites : list string) (st : loop_state) : RM loop_state :=
  match suites with
  | [] => rret st
  | suite :: rest =>
      current <~ lift (getCurrentResults e ("./" +:+ suite +:+ ".xml")) ;;
      reference <~ lift (Ts.getReferenceResults e suite) ;;
      st' <~ compare suite current reference st ;;
      loop rest st'
  end.

(** The whole script: [githubToken] and [suitesInput] are the inputs
    "token" (required) and "suites", [check_id] is the id the platform
    gives to the created check run. *)
Definition main (githubToken suitesInput : string) (ctx : context)
    (check_id : Z) : RM unit :=
  if String.eqb githubToken "" then
    rthrow (Error "Input required and not supplied: token")
  else
    c <~ getCheckRunContext ctx ;;
    checks_create (fst c) ~;;
    emit Info ("Check created, id: " +:+ number_to_string (Int check_id)) ~;;
    st <~ loop (split suitesInput ","%char) initial_state ;;
    checks_update check_id
      (if regressionsDetected st then "failure" else "success")
      (join newline (outputLines st)) ~;;
    emit Info "Check updated".

End Script.

End Readme.

(** A push event, and a [workflow_run] event without its payload. *)
Definition push_context : Readme.context :=
  {| Readme.eventName := "push"; Readme.workflow_run := None;
     Readme.pull_request := None; Readme.sha := "4f2a9c1";
     Readme.runId := 31 |}.

(** A pull-request event and a [workflow_run] event with its payload. *)
Definition pull_request_context : Readme.context :=
  {| Readme.eventName := "pull_request"; Readme.workflow_run := None;
     Readme.pull_request := Some "9be01d7"; Readme.sha := "4f2a9c1";
     Readme.runId := 31 |}.

Definition workflow_context : Readme.context :=
  {| Readme.eventName := "workflow_run";
     Readme.workflow_run := Some ("c07d5e2", 28);
     Readme.pull_request := None; Readme.sha := "4f2a9c1";
     Readme.runId := 31 |}.

Definition broken_context : Readme.context :=
  {| Readme.eventName := "workflow_run"; Readme.workflow_run := None;
     Readme.pull_request := None; Readme.sha := "4f2a9c1";
     Readme.runId := 31 |}.

(** The lines the README script writes for a list of compared suites:
    through [core.error] for a regression, through [core.info]
    otherwise. *)
Definition verdict_entries (cur ref : string -> Results)
    (suites : list string) : list (Readme.channel * string) :=
  map (fun s => (if regressed cur ref s then Readme.Err else Readme.Info,
                 verdict_line s (cur s) (ref s)))
      suites.

(** [getCheckRunContext] finds what it needs in the event. *)
Definition usable_context (ctx : Readme.context) : Prop :=
  Readme.eventName ctx = "workflow_run" -> Readme.workflow_run ctx <> None.

(** ** Sizes

    Sums and differences of doubles are exact as long as the integers
    involved stay within [2^53]. *)

Definition magnitude (v : number) : Z :=
  match v with
  | Int z => Z.abs z
  | NaN => 0
  | Infinity _ => 2 ^ 53 + 1
  end.

(** The sum of the absolute values of the attributes of a group that are
    read as integers. *)
Definition group_weight (ts : gmap string string) : Z :=
  magnitude (parseInt_value (ts !! "@_tests"))
  + magnitude (parseInt_value (ts !! "@_failures"))
  + magnitude (parseInt_value (ts !! "@_errors"))
  + magnitude (parseInt_value (ts !! "@_skipped")).

Definition weight (l : list (gmap string string)) : Z :=
  fold_right (fun ts acc => group_weight ts + acc) 0 l.

(** The [tests] attribute of a group, 0 when it is not an integer. *)
Definition tests_of (ts : gmap string string) : Z :=
  match parseInt_value (ts !! "@_tests") with
  | Int t => t
  | _ => 0
  end.

Definition tests_total (l : list (gmap string string)) : Z :=
  fold_right (fun ts acc => tests_of ts + acc) 0 l.

(** The attribute [key] is read as the integer [v] in each group. *)
Definition reads (key : string) (l : list (gmap string string))
    (vs : list Z) : Prop :=
  Forall2 (fun ts v => parseInt_value (ts !! key) = Int v) l vs.

Definition Zsum (vs : list Z) : Z := fold_right Z.add 0 vs.


(** Sums without rounding, to compare with. *)
Definition xadd (a b : number) : number :=
  match a, b with
  | Int x, Int y => Int (x + y)
  | _, _ => nadd a b
  end.

Definition xsub (a b : number) : number := xadd a (nneg b).

Definition exact_add_testsuite (results : Results) (ts : gmap string string)
  : Results :=
  let tests := parseInt_value (ts !! "@_tests") in
  let failures := parseInt_value (ts !! "@_failures") in
  let errors := parseInt_value (ts !! "@_errors") in
  let skipped' := parseInt_value (ts !! "@_skipped") in
  {| total := xadd (total results) tests;
     passed := xadd (passed results)
                 (xsub tests (xadd (xadd failures errors) skipped'));
     failed := xadd (failed results) (xadd failures errors);
     skipped := xadd (skipped results) skipped' |}.

Definition exact_plus (a b : Results) : Results :=
  {| total := xadd (total a) (total b);
     passed := xadd (passed a) (passed b);
     failed := xadd (failed a) (failed b);
     skipped := xadd (skipped a) (skipped b) |}.

(** ** More sample inputs *)

(** Well-formed groups whose counts leave the range of exact sums. *)
Definition large_report : list element :=
  [leaf "9007199254740992" "0" "0" "0"; leaf "1" "1" "0" "0";
   leaf "1" "1" "0" "0"].

Definition four_groups : list (gmap string string) :=
  [group "90" "20" "4" "0"; group "4" "0" "0" "0";
   group "12" "1" "0" "2"; group "-3" "0" "1" "0"].

(** A summary whose first number is not the value of a double. *)
Definition odd_summary : string :=
  "**9007199254740993** tests were completed in **7ms** with **9007199254740993** passed, **0** failed and **0** skipped".

(** * Properties *)

(** ** Numbers *)

Lemma nadd_NaN_l (a : number) : nadd NaN a = NaN.
Proof. reflexivity. Qed.

Lemma nadd_NaN_r (a : number) : nadd a NaN = NaN.
Proof. destruct a; reflexivity. Qed.

Lemma ngt_Int (x y : Z) : ngt (Int x) (Int y) = true <-> x > y.
Proof. simpl. rewrite Z.ltb_lt. lia. Qed.

Lemma ngt_false_Int (x y : Z) : ngt (Int x) (Int y) = false <-> x <= y.
Proof. simpl. rewrite Z.ltb_ge. lia. Qed.

(** Sums and differences that stay within [2^53] are exact. *)
Lemma round_double_small (z : Z) :
  Z.abs z <= 2 ^ 53 -> round_double z = Int z.
Proof.
  intros H. unfold round_double.
  destruct (Z.leb_spec (Z.abs z) (2 ^ 53)); [reflexivity | lia].
Qed.

Lemma nadd_Int (x y : Z) :
  Z.abs (x + y) <= 2 ^ 53 -> nadd (Int x) (Int y) = Int (x + y).
Proof. intros H. cbn [nadd]. apply round_double_small, H. Qed.

Lemma nsub_Int (x y : Z) :
  Z.abs (x - y) <= 2 ^ 53 -> nsub (Int x) (Int y) = Int (x - y).
Proof.
  intros H. unfold nsub. cbn [nneg nadd].
  replace (x + - y) with (x - y) by lia. apply round_double_small, H.
Qed.

Lemma nsub_NaN_l (a : number) : nsub NaN a = NaN.
Proof. reflexivity. Qed.

Lemma nsub_NaN_r (a : number) : nsub a NaN = NaN.
Proof. destruct a; reflexivity. Qed.

(** ** The aggregator *)

Lemma tests_total_nonneg (l : list (gmap string string)) :
  Forall well_formed_group l -> 0 <= tests_total l.
Proof.
  induction 1 as [|ts l (t & f & er & s & (At & _) & Hw) _ IH];
    cbn [tests_total fold_right]; [lia|].
  fold (tests_total l). unfold tests_of. rewrite At. lia.
Qed.

Lemma add_testsuite_balanced (r : Results) (ts : gmap string string) (t : Z) :
  balanced r -> well_formed_group ts ->
  total r = Int t -> t + tests_of ts <= 2 ^ 53 ->
  balanced (add_testsuite r ts)
  /\ total (add_testsuite r ts) = Int (t + tests_of ts).
Proof.
  intros (t0 & p & f & s & Ht & Hp & Hf & Hs & Hb)
         (t' & f' & er' & s' & (At & Af & Ae & As) & Hw) Ht' Hbound.
  rewrite Ht in Ht'. injection Ht' as ->.
  unfold tests_of in *. rewrite At in Hbound |- *.
  unfold add_testsuite. cbn [total passed failed skipped].
  rewrite Ht, Hp, Hf, Hs, At, Af, Ae, As.
  rewrite (nadd_Int t t') by lia.
  rewrite (nadd_Int f' er') by lia.
  rewrite (nadd_Int (f' + er') s') by lia.
  rewrite (nsub_Int t' (f' + er' + s')) by lia.
  rewrite (nadd_Int p _) by lia.
  rewrite (nadd_Int f _) by lia.
  rewrite (nadd_Int s s') by lia.
  split; [|reflexivity].
  exists (t + t'), (p + (t' - (f' + er' + s'))), (f + (f' + er')), (s + s').
  cbn [total passed failed skipped]. repeat split; lia.
Qed.

Lemma fold_balanced (l : list (gmap string string)) (r : Results) (t : Z) :
  balanced r -> total r = Int t -> Forall well_formed_group l ->
  t + tests_total l <= 2 ^ 53 ->
  balanced (fold_left add_testsuite l r).
Proof.
  revert r t. induction l as [|ts l IH]; intros r t Hr Ht Hl Hb;
    cbn [fold_left]; [exact Hr|].
  inversion Hl as [|? ? Hts Hl']; subst.
  cbn [tests_total fold_right] in Hb. fold (tests_total l) in Hb.
  pose proof (tests_total_nonneg l Hl') as Hnn.
  destruct (add_testsuite_balanced r ts t Hr Hts Ht) as [Hr' Ht']; [lia|].
  apply (IH _ (t + tests_of ts)); [exact Hr' | exact Ht' | exact Hl' | lia].
Qed.

Lemma zero_balanced : balanced zero_results.
Proof. exists 0, 0, 0, 0. cbn. repeat split; lia. Qed.

(** Once a counter is [NaN] it stays [NaN]. *)
Lemma fold_total_NaN (l : list (gmap string string)) (r : Results) :
  total r = NaN -> total (fold_left add_testsuite l r) = NaN.
Proof.
  revert r. induction l as [|ts l IH]; intros r Hr; cbn [fold_left];
    [exact Hr|].
  apply IH. cbn [add_testsuite total]. rewrite Hr. reflexivity.
Qed.

Lemma fold_passed_NaN (l : list (gmap string string)) (r : Results) :
  passed r = NaN -> passed (fold_left add_testsuite l r) = NaN.
Proof.
  revert r. induction l as [|ts l IH]; intros r Hr; cbn [fold_left];
    [exact Hr|].
  apply IH. cbn [add_testsuite passed]. rewrite Hr. reflexivity.
Qed.

Lemma fold_failed_NaN (l : list (gmap string string)) (r : Results) :
  failed r = NaN -> failed (fold_left add_testsuite l r) = NaN.
Proof.
  revert r. induction l as [|ts l IH]; intros r Hr; cbn [fold_left];
    [exact Hr|].
  apply IH. cbn [add_testsuite failed]. rewrite Hr. reflexivity.
Qed.

Lemma fold_skipped_NaN (l : list (gmap string string)) (r : Results) :
  skipped r = NaN -> skipped (fold_left add_testsuite l r) = NaN.
Proof.
  revert r. induction l as [|ts l IH]; intros r Hr; cbn [fold_left];
    [exact Hr|].
  apply IH. cbn [add_testsuite skipped]. rewrite Hr. reflexivity.
Qed.

Lemma fold_unreadable_tests l r :
  Exists (unreadable "@_tests") l ->
  total (fold_left add_testsuite l r) = NaN
  /\ passed (fold_left add_testsuite l r) = NaN.
Proof.
  revert r. induction l as [|ts l IH]; intros r H; inversion H; subst;
    cbn [fold_left].
  - unfold unreadable in *. split.
    + apply fold_total_NaN. cbn [add_testsuite total]. rewrite H1.
      apply nadd_NaN_r.
    + apply fold_passed_NaN. cbn [add_testsuite passed]. rewrite H1.
      rewrite nsub_NaN_l. apply nadd_NaN_r.
  - apply IH. assumption.
Qed.

Lemma fold_unreadable_failures l r :
  Exists (unreadable "@_failures") l ->
  failed (fold_left add_testsuite l r) = NaN
  /\ passed (fold_left add_testsuite l r) = NaN.
Proof.
  revert r. induction l as [|ts l IH]; intros r H; inversion H; subst;
    cbn [fold_left].
  - unfold unreadable in *. split.
    + apply fold_failed_NaN. cbn [add_testsuite failed]. rewrite H1.
      rewrite nadd_NaN_l. apply nadd_NaN_r.
    + apply fold_passed_NaN. cbn [add_testsuite passed]. rewrite H1.
      rewrite !nadd_NaN_l, nsub_NaN_r. apply nadd_NaN_r.
  - apply IH. assumption.
Qed.

Lemma fold_unreadable_errors l r :
  Exists (unreadable "@_errors") l ->
  failed (fold_left add_testsuite l r) = NaN
  /\ passed (fold_left add_testsuite l r) = NaN.
Proof.
  revert r. induction l as [|ts l IH]; intros r H; inversion H; subst;
    cbn [fold_left].
  - unfold unreadable in *. split.
    + apply fold_failed_NaN. cbn [add_testsuite failed]. rewrite H1.
      rewrite nadd_NaN_r. apply nadd_NaN_r.
    + apply fold_passed_NaN. cbn [add_testsuite passed]. rewrite H1.
      rewrite nadd_NaN_r, nadd_NaN_l, nsub_NaN_r. apply nadd_NaN_r.
  - apply IH. assumption.
Qed.

Lemma fold_unreadable_skipped l r :
  Exists (unreadable "@_skipped") l ->
  skipped (fold_left add_testsuite l r) = NaN
  /\ passed (fold_left add_testsuite l r) = NaN.
Proof.
  revert r. induction l as [|ts l IH]; intros r H; inversion H; subst;
    cbn [fold_left].
  - unfold unreadable in *. split.
    + apply fold_skipped_NaN. cbn [add_testsuite skipped]. rewrite H1.
      apply nadd_NaN_r.
    + apply fold_passed_NaN. cbn [add_testsuite passed]. rewrite H1.
      rewrite nadd_NaN_r, nsub_NaN_r. apply nadd_NaN_r.
  - apply IH. assumption.
Qed.

(** A counter whose attributes are all read as integers is their sum, as
    long as the absolute values involved sum to at most [2^53]. *)
Lemma Zsum_abs_nonneg (vs : list Z) : 0 <= Zsum (map Z.abs vs).
Proof. induction vs as [|v vs IH]; cbn [Zsum map fold_right]; [lia|].
  fold (Zsum (map Z.abs vs)). lia. Qed.

Lemma fold_total_sum (l : list (gmap string string)) (vs : list Z) :
  reads "@_tests" l vs ->
  forall (r : Results) (t : Z),
    total r = Int t -> Z.abs t + Zsum (map Z.abs vs) <= 2 ^ 53 ->
    total (fold_left add_testsuite l r) = Int (t + Zsum vs).
Proof.
  induction 1 as [|ts v l vs Hv _ IH]; intros r t Ht Hb;
    cbn [fold_left Zsum map fold_right] in *.
  - rewrite Ht. f_equal. lia.
  - fold (Zsum vs). fold (Zsum (map Z.abs vs)) in Hb.
    pose proof (Zsum_abs_nonneg vs).
    rewrite (IH _ (t + v)); [f_equal; lia | | lia].
    cbn [add_testsuite total]. rewrite Ht, Hv. apply nadd_Int. lia.
Qed.

Lemma fold_skipped_sum (l : list (gmap string string)) (vs : list Z) :
  reads "@_skipped" l vs ->
  forall (r : Results) (s : Z),
    skipped r = Int s -> Z.abs s + Zsum (map Z.abs vs) <= 2 ^ 53 ->
    skipped (fold_left add_testsuite l r) = Int (s + Zsum vs).
Proof.
  induction 1 as [|ts v l vs Hv _ IH]; intros r s Hs Hb;
    cbn [fold_left Zsum map fold_right] in *.
  - rewrite Hs. f_equal. lia.
  - fold (Zsum vs). fold (Zsum (map Z.abs vs)) in Hb.
    pose proof (Zsum_abs_nonneg vs).
    rewrite (IH _ (s + v)); [f_equal; lia | | lia].
    cbn [add_testsuite skipped]. rewrite Hs, Hv. apply nadd_Int. lia.
Qed.

Lemma fold_failed_sum (l : list (gmap string string)) (fs : list Z) :
  reads "@_failures" l fs ->
  forall (es : list Z) (r : Results) (f : Z),
    reads "@_errors" l es ->
    failed r = Int f ->
    Z.abs f + Zsum (map Z.abs fs) + Zsum (map Z.abs es) <= 2 ^ 53 ->
    failed (fold_left add_testsuite l r) = Int (f + Zsum fs + Zsum es).
Proof.
  induction 1 as [|ts v l fs Hv _ IH]; intros es r f Hes Hf Hb;
    inversion Hes as [|? u ? es' Hu Hes']; subst;
    cbn [fold_left Zsum map fold_right] in *.
  - rewrite Hf. f_equal. lia.
  - fold (Zsum fs). fold (Zsum es'). fold (Zsum (map Z.abs fs)) in Hb.
    fold (Zsum (map Z.abs es')) in Hb.
    pose proof (Zsum_abs_nonneg fs). pose proof (Zsum_abs_nonneg es').
    rewrite (IH es' _ (f + (v + u))); [f_equal; lia | exact Hes' | | lia].
    cbn [add_testsuite failed]. rewrite Hf, Hv, Hu.
    rewrite (nadd_Int v u) by lia. apply nadd_Int. lia.
Qed.

(** What the loop iterates over for a document of two or more elements. *)
Lemma reports_document (e : env) (junitPath : string) (els : list element) :
  documents e junitPath = inr els -> (2 <= length els)%nat ->
  reports e junitPath = inr (map attributes els).
Proof.
  intros Hdoc Hlen. unfold reports. rewrite Hdoc.
  destruct els as [|a [|b els]]; cbn [length] in Hlen; [lia | lia |].
  reflexivity.
Qed.

(** C2, as stated, fails: the three groups of [large_report] are
    well-formed (tests 9007199254740992, 1 and 1; failures 0, 1 and 1), and
    the record returned for them has total 9007199254740992 while
    passed + failed + skipped is 9007199254740994. *)
Lemma C2_counterexample :
  Forall well_formed_group (map attributes large_report)
  /\ exists r,
       getCurrentResults (document_env large_report []) "./h2spec.xml"
         empty_world = (Normal r, empty_world)
       /\ total r = Int 9007199254740992
       /\ nadd (nadd (passed r) (failed r)) (skipped r)
          = Int 9007199254740994
       /\ neq (total r) (nadd (nadd (passed r) (failed r)) (skipped r))
          = false.
Proof.
  split.
  - repeat constructor.
    + exists 9007199254740992, 0, 0, 0.
      split; [repeat split; vm_compute; reflexivity | lia].
    + exists 1, 1, 0, 0.
      split; [repeat split; vm_compute; reflexivity | lia].
    + exists 1, 1, 0, 0.
      split; [repeat split; vm_compute; reflexivity | lia].
  - eexists. split; [vm_compute; reflexivity|].
    repeat split; vm_compute; reflexivity.
Qed.

(** C2, amended. For every well-formed document with at least two test
    groups (each group's four attributes are read as non-negative integers
    with failures + errors + skipped <= tests) whose tests attributes sum
    to at most 2^53, [getCurrentResults] returns a record whose counters
    are non-negative integers with total = passed + failed + skipped; the
    script's own [==] on its own sums agrees. *)
Theorem C2_aggregator_invariant (e : env) (junitPath : string)
    (els : list element) (w : world) :
  documents e junitPath = inr els ->
  (2 <= length els)%nat ->
  Forall well_formed_group (map attributes els) ->
  tests_total (map attributes els) <= 2 ^ 53 ->
  exists r,
    getCurrentResults e junitPath w = (Normal r, w)
    /\ balanced r
    /\ neq (total r) (nadd (nadd (passed r) (failed r)) (skipped r)) = true.
Proof.
  intros Hdoc Hlen Hwf Hbound. exists (aggregate (map attributes els)).
  unfold getCurrentResults. rewrite (reports_document e _ els Hdoc Hlen).
  assert (Hb : balanced (aggregate (map attributes els))).
  { apply (fold_balanced _ _ 0);
      [apply zero_balanced | reflexivity | exact Hwf | lia]. }
  split; [reflexivity|]. split; [exact Hb|].
  assert (Ht : exists t, total (aggregate (map attributes els)) = Int t
                         /\ t <= 2 ^ 53).
  { clear Hb Hdoc Hlen. unfold aggregate.
    assert (Hgen : forall l r t0, balanced r -> total r = Int t0 ->
              Forall well_formed_group l -> t0 + tests_total l <= 2 ^ 53 ->
              exists t, total (fold_left add_testsuite l r) = Int t
                        /\ t <= 2 ^ 53).
    { induction l as [|ts l IH]; intros r t0 Hr Ht0 Hl Hb;
        cbn [fold_left tests_total fold_right] in *.
      - exists t0. split; [exact Ht0 | lia].
      - fold (tests_total l) in Hb.
        inversion Hl as [|? ? Hts Hl']; subst.
        pose proof (tests_total_nonneg l Hl').
        destruct (add_testsuite_balanced r ts t0 Hr Hts Ht0) as [Hr' Ht'];
          [lia|].
        apply (IH _ (t0 + tests_of ts)); [exact Hr' | exact Ht' | exact Hl'
                                          | lia]. }
    apply (Hgen _ _ 0); [apply zero_balanced | reflexivity | exact Hwf | lia]. }
  destruct Ht as (t0 & Ht0 & Hle).
  destruct Hb as (t & p & f & s & Ht & Hp & Hf & Hs & ? & ? & ? & Heq).
  rewrite Ht in Ht0. injection Ht0 as <-.
  rewrite Ht, Hp, Hf, Hs.
  rewrite (nadd_Int p f) by lia. rewrite (nadd_Int (p + f) s) by lia.
  cbn [neq]. apply Z.eqb_eq. lia.
Qed.

Lemma C2_aggregator_invariant_witness :
  exists r,
    getCurrentResults sample_env "./h2spec.xml" empty_world
    = (Normal r, empty_world)
    /\ balanced r
    /\ neq (total r) (nadd (nadd (passed r) (failed r)) (skipped r)) = true.
Proof.
  apply (C2_aggregator_invariant sample_env "./h2spec.xml"
           (map suite_element sample_report)).
  - reflexivity.
  - cbn. lia.
  - repeat constructor.
    + exists 90, 20, 4, 0.
      split; [repeat split; vm_compute; reflexivity | lia].
    + exists 4, 0, 0, 0.
      split; [repeat split; vm_compute; reflexivity | lia].
  - vm_compute. discriminate.
Defined.

(** A document without [<testsuite>] elements, and one whose only
    [<testsuite>] element has attributes, cannot be iterated over. *)
Lemma short_document_raises (e : env) (junitPath : string)
    (els : list element) (w : world) :
  documents e junitPath = inr els ->
  els = [] \/ (exists el, els = [el] /\ attributes el <> ∅) ->
  getCurrentResults e junitPath w = (Uncaught not_iterable, w).
Proof.
  intros Hdoc Hels. unfold getCurrentResults, reports. rewrite Hdoc.
  destruct Hels as [-> | (el & -> & Hattr)]; [reflexivity|].
  cbn [iterated]. rewrite bool_decide_false by exact Hattr.
  rewrite orb_true_r. reflexivity.
Qed.

(** C6 fails on the code. For a document without any [<testsuite>]
    element, [doc.testsuites.testsuite] is [undefined]: the [for ... of]
    of [getCurrentResults] raises a [TypeError], no record is returned and
    the TypeScript script ends with an uncaught exception (status 1)
    before anything is published, also when the suite has a check run to
    compare with. *)
Theorem C6_empty_document_raises :
  getCurrentResults
    (document_env [] [ {| name := "h2spec"; summary := Str sample_summary |} ])
    "./h2spec.xml" empty_world
  = (Uncaught not_iterable, empty_world)
  /\ Ts.main
       (document_env [] [ {| name := "h2spec"; summary := Str sample_summary |} ])
       ["h2spec"] empty_world
     = (Uncaught not_iterable, empty_world)
  /\ exit_status (A := unit) (Uncaught not_iterable) = 1.
Proof. repeat split. Qed.

(** What the loop gets for documents with one [<testsuite>] element: an
    element with attributes cannot be iterated over, whereas an element
    without attributes and content is iterated zero times. *)
Example single_element_documents :
  getCurrentResults (document_env [leaf "4" "1" "0" "0"] []) "./h2spec.xml"
    empty_world
  = (Uncaught not_iterable, empty_world)
  /\ getCurrentResults (document_env [bare] []) "./h2spec.xml" empty_world
     = (Normal zero_results, empty_world)
  /\ getCurrentResults
       (document_env [leaf "4" "1" "0" "0"; leaf "3" "0" "0" "1"] [])
       "./h2spec.xml" empty_world
     = (Normal {| total := Int 7; passed := Int 5;
                  failed := Int 1; skipped := Int 1 |}, empty_world).
Proof. repeat split; vm_compute; reflexivity. Qed.

(** The initial record is what the loop returns when it iterates over
    nothing, which is the case of a document whose only [<testsuite>]
    element has neither attributes nor content. *)
Lemma empty_iteration_gives_zeros (e : env) (junitPath : string) (w : world) :
  reports e junitPath = inr [] ->
  getCurrentResults e junitPath w
  = (Normal {| total := Int 0; passed := Int 0;
               failed := Int 0; skipped := Int 0 |}, w).
Proof.
  intros Hrep. unfold getCurrentResults. rewrite Hrep. reflexivity.
Qed.

(** C8, as stated, fails: on a report whose second group has the attribute
    tests="many", [getCurrentResults] raises nothing and returns a record,
    with [NaN] counters next to counters summed over all the groups. *)
Lemma C8_counterexample :
  Exists (unreadable "@_tests") broken_report
  /\ getCurrentResults sample_env "./broken.xml" empty_world
     = (Normal {| total := NaN; passed := NaN;
                  failed := Int 6; skipped := Int 1 |}, empty_world).
Proof.
  split.
  - apply Exists_cons_tl, Exists_cons_hd. vm_compute. reflexivity.
  - vm_compute. reflexivity.
Qed.

(** C8, amended. For every document with at least two test groups in
    which some group has a missing attribute or one without a leading
    decimal integer, [getCurrentResults] raises nothing: it returns a
    record whose [passed] is [NaN], and whose [total], [failed], [skipped]
    is [NaN] when the unreadable attribute is [tests], [failures] or
    [errors], [skipped] respectively.  A counter none of whose attributes
    is unreadable is still summed over all the groups: when the [tests]
    (the [skipped]) attributes are read as the integers [ts] ([ss]), total
    (skipped) is their sum, and when the [failures] and [errors]
    attributes are read as [fs] and [es], failed is the sum of both; the
    sums are exact as long as the absolute values add up to at most
    2^53. *)
Theorem C8_unreadable_attribute_gives_NaN (e : env) (junitPath : string)
    (els : list element) (w : world) :
  documents e junitPath = inr els ->
  (2 <= length els)%nat ->
  Exists (unreadable "@_tests") (map attributes els)
  \/ Exists (unreadable "@_failures") (map attributes els)
  \/ Exists (unreadable "@_errors") (map attributes els)
  \/ Exists (unreadable "@_skipped") (map attributes els) ->
  exists r,
    getCurrentResults e junitPath w = (Normal r, w)
    /\ passed r = NaN
    /\ (Exists (unreadable "@_tests") (map attributes els) -> total r = NaN)
    /\ (Exists (unreadable "@_failures") (map attributes els)
        \/ Exists (unreadable "@_errors") (map attributes els) ->
        failed r = NaN)
    /\ (Exists (unreadable "@_skipped") (map attributes els) ->
        skipped r = NaN)
    /\ (forall ts, reads "@_tests" (map attributes els) ts ->
        Zsum (map Z.abs ts) <= 2 ^ 53 -> total r = Int (Zsum ts))
    /\ (forall fs es, reads "@_failures" (map attributes els) fs ->
        reads "@_errors" (map attributes els) es ->
        Zsum (map Z.abs fs) + Zsum (map Z.abs es) <= 2 ^ 53 ->
        failed r = Int (Zsum fs + Zsum es))
    /\ (forall ss, reads "@_skipped" (map attributes els) ss ->
        Zsum (map Z.abs ss) <= 2 ^ 53 -> skipped r = Int (Zsum ss)).
Proof.
  intros Hdoc Hlen Hbad. exists (aggregate (map attributes els)).
  unfold getCurrentResults. rewrite (reports_document e _ els Hdoc Hlen).
  split; [reflexivity|].
  unfold aggregate. split.
  { destruct Hbad as [H | [H | [H | H]]].
    - apply (fold_unreadable_tests _ _ H).
    - apply (fold_unreadable_failures _ _ H).
    - apply (fold_unreadable_errors _ _ H).
    - apply (fold_unreadable_skipped _ _ H). }
  split; [intros H; apply (fold_unreadable_tests _ _ H)|].
  split.
  { intros [H | H].
    - apply (fold_unreadable_failures _ _ H).
    - apply (fold_unreadable_errors _ _ H). }
  split; [intros H; apply (fold_unreadable_skipped _ _ H)|].
  split; [|split].
  - intros ts Hts Hb.
    rewrite (fold_total_sum _ ts Hts zero_results 0); [f_equal; lia | | ];
      [reflexivity | cbn [Z.abs]; lia].
  - intros fs es Hfs Hes Hb.
    rewrite (fold_failed_sum _ fs Hfs es zero_results 0);
      [f_equal; lia | exact Hes | reflexivity | cbn [Z.abs]; lia].
  - intros ss Hss Hb.
    rewrite (fold_skipped_sum _ ss Hss zero_results 0); [f_equal; lia | | ];
      [reflexivity | cbn [Z.abs]; lia].
Qed.

Lemma C8_unreadable_attribute_gives_NaN_witness :
  exists r,
    getCurrentResults sample_env "./broken.xml" empty_world
    = (Normal r, empty_world)
    /\ passed r = NaN
    /\ (Exists (unreadable "@_tests")
          (map attributes (map suite_element broken_report)) ->
        total r = NaN)
    /\ (Exists (unreadable "@_failures")
          (map attributes (map suite_element broken_report))
        \/ Exists (unreadable "@_errors")
             (map attributes (map suite_element broken_report)) ->
        failed r = NaN)
    /\ (Exists (unreadable "@_skipped")
          (map attributes (map suite_element broken_report)) ->
        skipped r = NaN)
    /\ (forall ts,
        reads "@_tests" (map attributes (map suite_element broken_report)) ts ->
        Zsum (map Z.abs ts) <= 2 ^ 53 -> total r = Int (Zsum ts))
    /\ (forall fs es,
        reads "@_failures"
          (map attributes (map suite_element broken_report)) fs ->
        reads "@_errors"
          (map attributes (map suite_element broken_report)) es ->
        Zsum (map Z.abs fs) + Zsum (map Z.abs es) <= 2 ^ 53 ->
        failed r = Int (Zsum fs + Zsum es))
    /\ (forall ss,
        reads "@_skipped"
          (map attributes (map suite_element broken_report)) ss ->
        Zsum (map Z.abs ss) <= 2 ^ 53 -> skipped r = Int (Zsum ss)).
Proof.
  apply (C8_unreadable_attribute_gives_NaN sample_env "./broken.xml"
           (map suite_element broken_report) empty_world).
  - reflexivity.
  - cbn. lia.
  - left. apply Exists_cons_tl, Exists_cons_hd. vm_compute. reflexivity.
Defined.

(** ** The comparison of one suite *)

Lemma compare_flag (suite : string) (current reference : Results)
    (st : loop_state) :
  regressionsDetected (Ts.compare suite current reference st)
  = regressionsDetected st || ngt (failed current) (failed reference).
Proof.
  unfold Ts.compare.
  destruct (ngt (failed current) (failed reference)); simpl.
  - rewrite orb_true_r. reflexivity.
  - rewrite orb_false_r. reflexivity.
Qed.

Lemma flagged_ngt (suite : string) (current reference : Results) :
  flagged suite current reference = ngt (failed current) (failed reference).
Proof. unfold flagged. rewrite compare_flag. reflexivity. Qed.

(** C1. The comparison flags a regression if and only if
    [current.failed > reference.failed]; equal counts are not flagged; and
    for a fixed reference, a flagged count stays flagged when it grows. *)
Theorem C1_regression_iff_more_failures (suite : string)
    (current reference : Results) (c r : Z) :
  failed current = Int c ->
  failed reference = Int r ->
  (flagged suite current reference = true <-> c > r)
  /\ (c = r -> flagged suite current reference = false)
  /\ (forall (current' : Results) (c' : Z),
         failed current' = Int c' -> c <= c' ->
         flagged suite current reference = true ->
         flagged suite current' reference = true).
Proof.
  intros Hc Hr. rewrite flagged_ngt, Hc, Hr. split; [|split].
  - apply ngt_Int.
  - intros ->. apply ngt_false_Int. lia.
  - intros current' c' Hc' Hle Hflag.
    rewrite flagged_ngt, Hc', Hr. apply ngt_Int. apply ngt_Int in Hflag. lia.
Qed.

Lemma C1_regression_iff_more_failures_witness :
  (flagged "h2spec" (mkResults (Int 94) (Int 70) (Int 24) (Int 0))
           (mkResults (Int 94) (Int 72) (Int 22) (Int 0)) = true <-> 24 > 22)
  /\ (24 = 22 ->
      flagged "h2spec" (mkResults (Int 94) (Int 70) (Int 24) (Int 0))
              (mkResults (Int 94) (Int 72) (Int 22) (Int 0)) = false)
  /\ (forall (current' : Results) (c' : Z),
         failed current' = Int c' -> 24 <= c' ->
         flagged "h2spec" (mkResults (Int 94) (Int 70) (Int 24) (Int 0))
                 (mkResults (Int 94) (Int 72) (Int 22) (Int 0)) = true ->
         flagged "h2spec" current'
                 (mkResults (Int 94) (Int 72) (Int 22) (Int 0)) = true).
Proof.
  apply (C1_regression_iff_more_failures "h2spec"
           (mkResults (Int 94) (Int 70) (Int 24) (Int 0))
           (mkResults (Int 94) (Int 72) (Int 22) (Int 0)) 24 22);
    reflexivity.
Defined.

(** X15. The verdict line of the TypeScript script, for integer counts:
    "Regression detected in <suite>: <c> > <r>" when [c > r], otherwise
    "No regression in <suite>: failed count <diff> (<passed> passed, <c>
    failed)" with [diff] "unchanged" when [c = r] and "-" followed by the
    double [r - c] when [c < r]; the numbers are written as
    [Number::toString] writes them, and the difference is the exact one
    while it is at most 2^53. *)
Lemma Ts_verdict_line (suite : string) (current reference : Results)
    (st : loop_state) (c r : Z) :
  failed current = Int c ->
  failed reference = Int r ->
  outputLines (Ts.compare suite current reference st)
  = (outputLines st ++
    [ if r <? c then
        "Regression detected in " +:+ suite +:+ ": "
        +:+ number_to_string (Int c) +:+ " > " +:+ number_to_string (Int r)
      else
        "No regression in " +:+ suite +:+ ": failed count "
        +:+ (if c =? r then "unchanged"
             else "-" +:+ number_to_string (nsub (Int r) (Int c)))
        +:+ " (" +:+ number_to_string (passed current) +:+ " passed, "
        +:+ number_to_string (Int c) +:+ " failed)" ])%list
  /\ (Z.abs (r - c) <= 2 ^ 53 -> nsub (Int r) (Int c) = Int (r - c)).
Proof.
  intros Hc Hr. split; [|apply nsub_Int].
  unfold Ts.compare, regression_line, no_regression_line, diff_text, nlt.
  rewrite Hc, Hr. cbn [ngt neq].
  destruct (r <? c) eqn:Hgt; cbn [outputLines]; [reflexivity|].
  destruct (c =? r) eqn:Heq; [reflexivity|].
  assert (Hlt : (c <? r) = true) by lia. rewrite Hlt. reflexivity.
Qed.

(** In [index.mjs] the comparison never produces a line: both branches
    evaluate [spec.checkName]. *)
Lemma Mjs_compare_raises (current reference : Results) (st : loop_state)
    (w : world) :
  Mjs.compare current reference st w
  = (Uncaught (ReferenceError "spec is not defined"), w).
Proof.
  unfold Mjs.compare.
  destruct (ngt (failed current) (failed reference)); reflexivity.
Qed.

(** C7. At the suite "h2spec" with 24 current and 22 reference failures the
    TypeScript script records the line
    "Regression detected in h2spec: 24 > 22", whereas [index.mjs], on the
    same input, ends with an uncaught [ReferenceError] and publishes
    nothing. *)
Theorem C7_mjs_verdict_line_raises :
  Ts.loop sample_env ["h2spec"] initial_state empty_world
  = (Normal {| regressionsDetected := true;
               outputLines := ["Regression detected in h2spec: 24 > 22"] |},
     empty_world)
  /\ Mjs.main sample_env ["h2spec"] empty_world
     = (Uncaught (ReferenceError "spec is not defined"), empty_world).
Proof. split; vm_compute; reflexivity. Qed.

(** ** The suite loop and the end of the script *)

Section Loop.
Variable e : env.
Variables cur ref : string -> Results.

Lemma loop_compared (suites : list string) (st : loop_state) (w : world) :
  (forall s, In s suites -> compared e s (cur s) (ref s)) ->
  Ts.loop e suites st w = (Normal (compare_all cur ref suites st), w).
Proof.
  revert st. induction suites as [|s suites IH]; intros st H; simpl.
  - reflexivity.
  - destruct (H s (or_introl eq_refl) w) as [Hc Hr].
    unfold bind at 1. rewrite Hc. unfold bind at 1. rewrite Hr.
    apply IH. intros s' Hs'. apply H. right. exact Hs'.
Qed.

Lemma compare_all_flag (suites : list string) (st : loop_state) :
  regressionsDetected (compare_all cur ref suites st)
  = regressionsDetected st || existsb (regressed cur ref) suites.
Proof.
  revert st. induction suites as [|s suites IH]; intros st; simpl.
  - rewrite orb_false_r. reflexivity.
  - rewrite IH, compare_flag.
    unfold regressed. rewrite orb_assoc. reflexivity.
Qed.

Lemma main_compared (suites : list string) (w : world) :
  (forall s, In s suites -> compared e s (cur s) (ref s)) ->
  fst (Ts.main e suites w)
  = if existsb (regressed cur ref) suites then Exit 1 else Normal tt.
Proof.
  intros H. unfold Ts.main. unfold bind at 1.
  rewrite (loop_compared suites initial_state w H).
  pose proof (compare_all_flag suites initial_state) as Hflag.
  simpl in Hflag. rewrite Hflag.
  destruct (issue_number e); destruct (existsb (regressed cur ref) suites); reflexivity.
Qed.

Lemma main_compared_check (suites : list string) (w : world) :
  (forall s, In s suites -> compared e s (cur s) (ref s)) ->
  created (snd (Ts.main e suites w))
  = (created w ++
     [(if existsb (regressed cur ref) suites then "failure" else "success",
       join newline (outputLines (compare_all cur ref suites initial_state)))])%list.
Proof.
  intros H. unfold Ts.main. unfold bind at 1.
  rewrite (loop_compared suites initial_state w H).
  pose proof (compare_all_flag suites initial_state) as Hflag.
  simpl in Hflag. rewrite Hflag.
  destruct (issue_number e); destruct (existsb (regressed cur ref) suites); reflexivity.
Qed.

Lemma existsb_Permutation (f : string -> bool) (l l' : list string) :
  Permutation l l' -> existsb f l = existsb f l'.
Proof.
  induction 1; simpl.
  - reflexivity.
  - rewrite IHPermutation. reflexivity.
  - destruct (f x), (f y); reflexivity.
  - congruence.
Qed.

End Loop.

(** C3. When every suite of the list yields its two records, the run ends
    with [process.exit(1)] if and only if at least one suite of the list
    has [current.failed > reference.failed], it runs to its end (status 0)
    if and only if no suite has, the published check says "failure"
    exactly in the first case, and the status is the same for every
    reordering of the list. *)
Theorem C3_overall_decision (e : env) (cur ref : string -> Results)
    (suites : list string) (w : world) :
  (forall s, In s suites -> compared e s (cur s) (ref s)) ->
  (fst (Ts.main e suites w) = Exit 1
   <-> exists s, In s suites /\ ngt (failed (cur s)) (failed (ref s)) = true)
  /\ (exit_status (fst (Ts.main e suites w)) = 0
      <-> forall s, In s suites ->
                    ngt (failed (cur s)) (failed (ref s)) = false)
  /\ (exists body,
        created (snd (Ts.main e suites w))
        = (created w ++
           [(if existsb
                  (fun s => ngt (failed (cur s)) (failed (ref s))) suites
             then "failure" else "success", body)])%list)
  /\ (forall suites', Permutation suites suites' ->
        exit_status (fst (Ts.main e suites' w))
        = exit_status (fst (Ts.main e suites w))).
Proof.
  intros H.
  change (fun s => ngt (failed (cur s)) (failed (ref s)))
    with (regressed cur ref).
  rewrite (main_compared e cur ref suites w H).
  split; [|split; [|split]].
  - destruct (existsb (regressed cur ref) suites) eqn:Hex.
    + split; [intros _|reflexivity].
      apply existsb_exists in Hex. destruct Hex as (s & Hin & Hs).
      exists s. split; assumption.
    + split; [discriminate|]. intros (s & Hin & Hs).
      assert (existsb (regressed cur ref) suites = true)
        by (apply existsb_exists; exists s; split; assumption).
      congruence.
  - destruct (existsb (regressed cur ref) suites) eqn:Hex; simpl.
    + split; [discriminate|]. intros Hno.
      apply existsb_exists in Hex. destruct Hex as (s & Hin & Hs).
      specialize (Hno s Hin). unfold regressed in Hs. congruence.
    + split; [intros _|reflexivity]. intros s Hin.
      destruct (ngt (failed (cur s)) (failed (ref s))) eqn:Hs; [|reflexivity].
      assert (existsb (regressed cur ref) suites = true)
        by (apply existsb_exists; exists s; split; assumption).
      congruence.
  - rewrite (main_compared_check e cur ref suites w H). eauto.
  - intros suites' Hperm.
    rewrite (main_compared e cur ref suites' w).
    + rewrite (existsb_Permutation _ _ _ Hperm). reflexivity.
    + intros s Hin. apply H. apply Permutation_sym in Hperm.
      apply (Permutation_in _ Hperm Hin).
Qed.

Lemma sample_compared (s : string) :
  In s ["quiet"; "h2spec"] ->
  compared sample_env s (sample_current s) (sample_reference s).
Proof.
  intros [<- | [<- | []]] w; split; vm_compute; reflexivity.
Qed.

Lemma C3_overall_decision_witness :
  (fst (Ts.main sample_env ["quiet"; "h2spec"] empty_world) = Exit 1
   <-> exists s, In s ["quiet"; "h2spec"]
                 /\ ngt (failed (sample_current s))
                        (failed (sample_reference s)) = true)
  /\ (exit_status (fst (Ts.main sample_env ["quiet"; "h2spec"] empty_world)) = 0
      <-> forall s, In s ["quiet"; "h2spec"] ->
                    ngt (failed (sample_current s))
                        (failed (sample_reference s)) = false)
  /\ (exists body,
        created (snd (Ts.main sample_env ["quiet"; "h2spec"] empty_world))
        = (created empty_world ++
           [(if existsb
                  (fun s => ngt (failed (sample_current s))
                                (failed (sample_reference s)))
                  ["quiet"; "h2spec"]
             then "failure" else "success", body)])%list)
  /\ (forall suites', Permutation ["quiet"; "h2spec"] suites' ->
        exit_status (fst (Ts.main sample_env suites' empty_world))
        = exit_status (fst (Ts.main sample_env ["quiet"; "h2spec"] empty_world))).
Proof.
  apply (C3_overall_decision sample_env sample_current sample_reference
           ["quiet"; "h2spec"] empty_world).
  intros s [<- | [<- | []]] w; split; vm_compute; reflexivity.
Defined.

(** ** Early ends of the run *)

Lemma loop_completes (e : env) (pre : list string) (st : loop_state) :
  (forall s, In s pre -> exists c r, compared e s c r) ->
  exists st', forall w, Ts.loop e pre st w = (Normal st', w).
Proof.
  revert st. induction pre as [|s pre IH]; intros st H; simpl.
  - exists st. reflexivity.
  - destruct (H s (or_introl eq_refl)) as (c & r & Hs).
    destruct (IH (Ts.compare s c r st)) as [st' Hst'].
    { intros s' Hs'. apply H. right. exact Hs'. }
    exists st'. intros w. destruct (Hs w) as [Hc Hr].
    unfold bind at 1. rewrite Hc. unfold bind at 1. rewrite Hr. apply Hst'.
Qed.

(** The loop over [pre ++ rest] is the loop over [pre] followed, when it
    completes, by the loop over [rest]. *)
Lemma loop_app (e : env) (pre rest : list string) (st : loop_state)
    (w : world) :
  Ts.loop e (pre ++ rest) st w
  = (st' <- Ts.loop e pre st ;; Ts.loop e rest st') w.
Proof.
  revert st w. induction pre as [|s pre IH]; intros st w.
  - reflexivity.
  - simpl. unfold bind.
    destruct (getCurrentResults e ("./" +:+ s +:+ ".xml") w)
      as [[c | code | err] w1]; try reflexivity.
    destruct (Ts.getReferenceResults e s w1)
      as [[r | code | err] w2]; try reflexivity.
    rewrite IH. reflexivity.
Qed.

Lemma reference_not_found (e : env) (suite : string) (w : world) :
  find_check e suite = None ->
  Ts.getReferenceResults e suite w
  = (Exit 0,
     {| console := console w
                   ++ ["No " +:+ JSON_stringify suite +:+ " check found"];
        comments := comments w; created := created w |}).
Proof.
  intros H. unfold Ts.getReferenceResults. rewrite H. reflexivity.
Qed.

(** C5. When the loop reaches a suite that has no check run of its name
    (the suites before it were compared and its own report was read), the
    run ends there with [process.exit(0)]: the suites after it are not
    looked at, no comment or check is published, and the only trace is the
    console message. *)
Theorem C5_missing_reference_soft_stop (e : env) (pre post : list string)
    (suite : string) (testsuite : list (gmap string string)) (w : world) :
  (forall s, In s pre -> exists c r, compared e s c r) ->
  reports e ("./" +:+ suite +:+ ".xml") = inr testsuite ->
  find_check e suite = None ->
  Ts.main e (pre ++ suite :: post) w
  = (Exit 0,
     {| console := console w
                   ++ ["No " +:+ JSON_stringify suite +:+ " check found"];
        comments := comments w; created := created w |}).
Proof.
  intros Hpre Hrep Hnone.
  destruct (loop_completes e pre initial_state Hpre) as [st' Hst'].
  unfold Ts.main. unfold bind at 1. rewrite loop_app.
  unfold bind at 1. rewrite Hst'. simpl.
  unfold bind at 1. unfold getCurrentResults. rewrite Hrep.
  unfold ret at 1. unfold bind at 1.
  rewrite (reference_not_found e suite w Hnone). reflexivity.
Qed.

Lemma C5_missing_reference_soft_stop_witness :
  Ts.main sample_env (["h2spec"; "quiet"] ++ "fresh" :: ["malformed"])
          empty_world
  = (Exit 0,
     {| console := console empty_world
                   ++ ["No " +:+ JSON_stringify "fresh" +:+ " check found"];
        comments := comments empty_world; created := created empty_world |}).
Proof.
  apply (C5_missing_reference_soft_stop sample_env ["h2spec"; "quiet"]
           ["malformed"] "fresh" [] empty_world).
  - intros s Hs. exists (sample_current s), (sample_reference s).
    destruct Hs as [<- | [<- | []]]; intros w; split; vm_compute; reflexivity.
  - reflexivity.
  - reflexivity.
Defined.

(** X17. The same soft stop in [index.mjs], at the first suite: with a
    readable report and no check run of its name the run ends with
    [process.exit(0)], whatever suites follow, and publishes nothing. *)
Lemma Mjs_missing_reference_soft_stop (e : env) (post : list string)
    (suite : string) (testsuite : list (gmap string string)) (w : world) :
  reports e ("target/h2spec-" +:+ suite +:+ ".xml") = inr testsuite ->
  find_check e suite = None ->
  Mjs.main e (suite :: post) w
  = (Exit 0,
     {| console := console w
                   ++ ["No " +:+ JSON_stringify suite +:+ " check found"];
        comments := comments w; created := created w |}).
Proof.
  intros Hrep Hnone. unfold Mjs.main. simpl. unfold bind at 1.
  unfold bind at 1. unfold getCurrentResults. rewrite Hrep.
  unfold ret at 1. unfold bind at 1.
  unfold Mjs.getReferenceResults. rewrite Hnone. reflexivity.
Qed.

(** X16. When the loop of the TypeScript script reaches a suite whose check
    run has no summary, or a summary the pattern does not match, the run
    ends with [process.exit(1)], writes the diagnostics to the console and
    publishes nothing. *)
Lemma Ts_summary_fatal (e : env) (pre post : list string) (suite : string)
    (check : check_run) (testsuite : list (gmap string string)) (w : world) :
  (forall s, In s pre -> exists c r, compared e s c r) ->
  reports e ("./" +:+ suite +:+ ".xml") = inr testsuite ->
  find_check e suite = Some check ->
  falsy (summary check) = true
  \/ exec 5 regex_summary (chars (to_string (summary check))) = None ->
  Ts.main e (pre ++ suite :: post) w
  = (Exit 1,
     {| console := console w ++ summary_diagnostics suite check;
        comments := comments w; created := created w |}).
Proof.
  intros Hpre Hrep Hfind Hbad.
  destruct (loop_completes e pre initial_state Hpre) as [st' Hst'].
  unfold Ts.main. unfold bind at 1. rewrite loop_app.
  unfold bind at 1. rewrite Hst'. simpl.
  unfold bind at 1. unfold getCurrentResults. rewrite Hrep.
  unfold ret at 1. unfold bind at 1.
  unfold Ts.getReferenceResults, summary_diagnostics. rewrite Hfind.
  destruct (falsy (summary check)) eqn:Hf.
  - reflexivity.
  - destruct Hbad as [Hbad | Hbad]; [discriminate|]. rewrite Hbad.
    unfold bind, console_log, process_exit. simpl.
    rewrite <- !app_assoc. reflexivity.
Qed.

(** C9. For the suite "malformed", whose check run's summary is
    "h2spec run cancelled", the TypeScript script logs the pattern and the
    text and exits with status 1, whereas [index.mjs] logs nothing and ends
    with an uncaught [TypeError]; likewise for "silent", whose summary is
    [null]. *)
Theorem C9_mjs_unguarded_summary :
  Ts.main sample_env ["malformed"] empty_world
  = (Exit 1,
     {| console := ["Output summary didn't match expected structure";
                    "Structure was: " +:+ regex_source;
                    "Output was:" +:+ newline +:+ "h2spec run cancelled"];
        comments := []; created := [] |})
  /\ Mjs.main sample_env ["malformed"] empty_world
     = (Uncaught (TypeError "Cannot read properties of null (reading '1')"),
        empty_world)
  /\ Ts.main sample_env ["silent"] empty_world
     = (Exit 1,
        {| console := ["No summary found for check silent"];
           comments := []; created := [] |})
  /\ Mjs.main sample_env ["silent"] empty_world
     = (Uncaught (TypeError "Cannot read properties of null (reading '1')"),
        empty_world).
Proof. repeat split; vm_compute; reflexivity. Qed.

(** ** Decimal digits *)

Lemma digit_char_ok (d : Z) :
  0 <= d <= 9 ->
  is_digit (digit_char d) = true /\ digit_val (digit_char d) = d.
Proof.
  intros H.
  assert (Hd : d = 0 \/ d = 1 \/ d = 2 \/ d = 3 \/ d = 4 \/ d = 5 \/ d = 6
               \/ d = 7 \/ d = 8 \/ d = 9) by lia.
  repeat (destruct Hd as [-> | Hd]; [split; reflexivity|]).
  subst. split; reflexivity.
Qed.

Lemma digits_value_snoc (ds : list ascii) (c : ascii) :
  digits_value (ds ++ [c]) = digits_value ds * 10 + digit_val c.
Proof. unfold digits_value. rewrite fold_left_app. reflexivity. Qed.

Lemma digits_of_S (fuel : nat) (n : Z) :
  digits_of (S fuel) n
  = if n <? 10 then [digit_char n]
    else (digits_of fuel (n / 10) ++ [digit_char (n mod 10)])%list.
Proof. reflexivity. Qed.

Lemma digits_of_spec (fuel : nat) (n : Z) :
  0 <= n < 2 ^ Z.of_nat (S fuel) ->
  all_digits (digits_of (S fuel) n) /\ digits_value (digits_of (S fuel) n) = n.
Proof.
  revert n. induction fuel as [|fuel IH]; intros n Hn;
    rewrite Nat2Z.inj_succ, Z.pow_succ_r in Hn by lia;
    rewrite digits_of_S; destruct (n <? 10) eqn:Hlt.
  - destruct (digit_char_ok n) as [Hd Hv]; [lia|].
    repeat split; [discriminate | constructor; [exact Hd | constructor] |].
    unfold digits_value. simpl. exact Hv.
  - simpl in Hn. lia.
  - destruct (digit_char_ok n) as [Hd Hv]; [lia|].
    repeat split; [discriminate | constructor; [exact Hd | constructor] |].
    unfold digits_value. simpl. exact Hv.
  - assert (Hq : 0 <= n / 10 < 2 ^ Z.of_nat (S fuel)).
    { split; [apply Z.div_pos; lia|].
      apply Z.div_lt_upper_bound; lia. }
    destruct (IH (n / 10) Hq) as [[Hne Hall] Hval].
    destruct (digit_char_ok (n mod 10)) as [Hd Hv].
    { pose proof (Z.mod_pos_bound n 10). lia. }
    repeat split.
    + intros Happ. apply app_eq_nil in Happ. destruct Happ; discriminate.
    + apply Forall_app. split; [exact Hall|].
      constructor; [exact Hd | constructor].
    + rewrite digits_value_snoc, Hval, Hv.
      pose proof (Z.div_mod n 10). lia.
Qed.

Lemma decimal_spec (n : Z) :
  0 <= n -> all_digits (decimal n) /\ digits_value (decimal n) = n.
Proof.
  intros Hn. unfold decimal. apply digits_of_spec.
  split; [exact Hn|].
  rewrite Nat2Z.inj_succ, Z2Nat.id by apply Z.log2_nonneg.
  destruct (Z.eq_dec n 0) as [-> | Hnz].
  - simpl. lia.
  - apply Z.log2_spec. lia.
Qed.

Lemma is_digit_code (c : ascii) : is_digit c = true -> 48 <= code c <= 57.
Proof. unfold is_digit. lia. Qed.

Lemma digits_value_nonneg (ds : list ascii) :
  all_digits ds -> 0 <= digits_value ds.
Proof.
  intros [_ Hall]. unfold digits_value.
  assert (H : forall a, 0 <= a ->
            0 <= fold_left (fun a c => a * 10 + digit_val c) ds a).
  { induction Hall as [|c ds Hc _ IH]; intros a Ha; cbn [fold_left];
      [exact Ha|].
    apply IH. apply is_digit_code in Hc. unfold digit_val. lia. }
  apply H. lia.
Qed.

Lemma take_while_all (p : ascii -> bool) (ds : list ascii) :
  Forall (fun c => p c = true) ds -> take_while p ds = ds.
Proof.
  induction 1 as [|c ds Hc _ IH]; simpl; [reflexivity|].
  rewrite Hc, IH. reflexivity.
Qed.

(** [parseInt] of a run of digits is its decimal value. *)
Lemma parseInt_digits (ds : list ascii) :
  all_digits ds -> parseInt ds = round_double (digits_value ds).
Proof.
  intros [Hne Hall]. destruct ds as [|c ds]; [congruence|].
  pose proof (take_while_all is_digit _ Hall) as Htw.
  inversion Hall as [|? ? Hc Hds]; subst.
  apply is_digit_code in Hc.
  unfold parseInt. simpl drop_while.
  assert (Hsp : is_space c = false) by (unfold is_space; lia).
  rewrite Hsp.
  assert (H45 : (code c =? 45) = false) by lia.
  assert (H43 : (code c =? 43) = false) by lia.
  rewrite H45, H43, Htw.
  f_equal. lia.
Qed.

Lemma parseInt_decimal (n : Z) :
  0 <= n -> parseInt (decimal n) = round_double n.
Proof.
  intros Hn. destruct (decimal_spec n Hn) as [Hd Hv].
  rewrite parseInt_digits, Hv by exact Hd. reflexivity.
Qed.

(** ** The matcher on the summary pattern *)

Lemma consumed_app (a b : list ascii) : consumed (a ++ b) b = a.
Proof.
  unfold consumed. rewrite length_app.
  replace (length a + length b - length b)%nat with (length a) by lia.
  induction a as [|c a IH]; simpl; [reflexivity | rewrite IH; reflexivity].
Qed.

Lemma match_lit_app (cs s : list ascii) : match_lit cs (cs ++ s) = Some s.
Proof.
  induction cs as [|c cs IH]; simpl; [destruct s; reflexivity|].
  rewrite Ascii.eqb_refl. exact IH.
Qed.

Lemma match_lit_inv (cs s rest : list ascii) :
  match_lit cs s = Some rest -> s = (cs ++ rest)%list.
Proof.
  revert s. induction cs as [|c cs IH]; intros s H.
  - destruct s; simpl in *; congruence.
  - destruct s as [|d s]; simpl in H; [discriminate|].
    destruct (Ascii.eqb c d) eqn:Hcd; [|discriminate].
    apply Ascii.eqb_eq in Hcd. subst d. simpl. f_equal. apply IH. exact H.
Qed.

Section Matcher.
Context {A : Type}.
Variable p : ascii -> bool.

Lemma greedy_stop (s : list ascii) (k : list ascii -> option A) :
  stops p s -> greedy p s k = k s.
Proof. destruct s as [|c s]; simpl; [reflexivity|]. intros ->. reflexivity. Qed.

Lemma greedy_prefix (ds s : list ascii) (k : list ascii -> option A) (v : A) :
  Forall (fun c => p c = true) ds ->
  greedy p s k = Some v -> greedy p (ds ++ s) k = Some v.
Proof.
  intros Hall Hs. induction Hall as [|c ds Hc _ IH]; simpl; [exact Hs|].
  rewrite Hc, IH. reflexivity.
Qed.

Lemma greedy_inv (s : list ascii) (k : list ascii -> option A) (v : A) :
  greedy p s k = Some v ->
  exists ds rest,
    s = (ds ++ rest)%list /\ Forall (fun c => p c = true) ds
    /\ k rest = Some v.
Proof.
  induction s as [|c s IH]; simpl; intros H.
  - exists [], []. repeat split; [constructor | exact H].
  - destruct (p c) eqn:Hc.
    + destruct (greedy p s k) as [r|] eqn:Hg.
      * injection H as ->.
        destruct (IH eq_refl) as (ds & rest & -> & Hall & Hk).
        exists (c :: ds), rest.
        repeat split; [constructor; assumption | exact Hk].
      * exists [], (c :: s). repeat split; [constructor | exact H].
    + exists [], (c :: s). repeat split; [constructor | exact H].
Qed.

End Matcher.

Lemma rmatch_seq (r1 r2 : regex) (s : list ascii) (caps : captures)
    (k : list ascii -> captures -> option captures) :
  rmatch (r1 +++ r2) s caps k
  = rmatch r1 s caps (fun rest caps' => rmatch r2 rest caps' k).
Proof. reflexivity. Qed.

Lemma rmatch_stars (s : list ascii) (caps : captures)
    (k : list ascii -> captures -> option captures) :
  rmatch stars (chars "**" ++ s) caps k = k s caps.
Proof. reflexivity. Qed.

Lemma rmatch_lit (cs s : list ascii) (caps : captures)
    (k : list ascii -> captures -> option captures) :
  rmatch (Lit cs) (cs ++ s) caps k = k s caps.
Proof. simpl. rewrite match_lit_app. reflexivity. Qed.

(** A group [(p+)]: a non-empty run of [p] is captured when what follows
    the run, shortened from the right as far as needed, is accepted. *)
Lemma rmatch_many1 (p : ascii -> bool) (n : nat) (ds s : list ascii)
    (caps : captures) (k : list ascii -> captures -> option captures)
    (v : captures) :
  ds <> [] -> Forall (fun c => p c = true) ds ->
  greedy p s
    (fun rest => k rest (<[n := Some (consumed (ds ++ s) rest)]> caps))
  = Some v ->
  rmatch (Group n (Many1 p)) (ds ++ s) caps k = Some v.
Proof.
  intros Hne Hall Hg. destruct ds as [|c ds]; [congruence|].
  inversion Hall as [|? ? Hc Hds]; subst.
  simpl. rewrite Hc. apply greedy_prefix; assumption.
Qed.

Lemma rmatch_digits (n : nat) (ds s : list ascii)
    (caps : captures) (k : list ascii -> captures -> option captures)
    (v : captures) :
  all_digits ds ->
  k (chars "**" ++ s) (<[n := Some ds]> caps) = Some v ->
  rmatch (Group n (Many1 is_digit)) (ds ++ chars "**" ++ s) caps k = Some v.
Proof.
  intros [Hne Hall] Hk. apply rmatch_many1; [assumption | assumption |].
  rewrite greedy_stop by reflexivity.
  rewrite consumed_app. exact Hk.
Qed.

(** The duration: [\w+] first runs over the "ms" that follows the token,
    and gives these two characters back. *)
Lemma rmatch_word (n : nat) (d s : list ascii)
    (caps : captures) (k : list ascii -> captures -> option captures)
    (v : captures) :
  word_token d ->
  (forall caps', k (chars "**" ++ s) caps' = None) ->
  (forall caps', k (chars "s**" ++ s) caps' = None) ->
  k (chars "ms**" ++ s) (<[n := Some d]> caps) = Some v ->
  rmatch (Group n (Many1 is_word)) (d ++ chars "ms**" ++ s) caps k = Some v.
Proof.
  intros [Hne Hall] H0 H1 Hk. apply rmatch_many1; [assumption | assumption |].
  change (chars "ms**" ++ s) with ("m"%char :: "s"%char :: chars "**" ++ s).
  cbn [greedy].
  change (is_word "m") with true. change (is_word "s") with true.
  cbv iota.
  rewrite greedy_stop by reflexivity. rewrite H0.
  change ("s"%char :: chars "**" ++ s) with (chars "s**" ++ s).
  rewrite H1.
  change ("m"%char :: chars "s**" ++ s) with (chars "ms**" ++ s).
  rewrite consumed_app. exact Hk.
Qed.

Lemma sentence_pieces (t d p f s post : list ascii) :
  sentence t d p f s ++ post
  = chars "**" ++ t ++ chars "**" ++ chars " tests were completed in "
    ++ chars "**" ++ d ++ chars "ms**" ++ chars " with "
    ++ chars "**" ++ p ++ chars "**" ++ chars " passed, "
    ++ chars "**" ++ f ++ chars "**" ++ chars " failed and "
    ++ chars "**" ++ s ++ chars "**" ++ chars " skipped" ++ post.
Proof. unfold sentence. repeat rewrite <- app_assoc. reflexivity. Qed.

(** Completeness: on a text that starts with the sentence, the pattern
    matches, and the first match found captures the five slots. *)
Lemma rmatch_sentence (t d p f s post : list ascii) (caps : captures)
    (k : list ascii -> captures -> option captures) (v : captures) :
  well_shaped t d p f s ->
  k post (<[5%nat := Some s]> (<[4%nat := Some f]> (<[3%nat := Some p]>
            (<[2%nat := Some d]> (<[1%nat := Some t]> caps))))) = Some v ->
  rmatch regex_summary (sentence t d p f s ++ post) caps k = Some v.
Proof.
  intros (Ht & Hd & Hp & Hf & Hs) Hk.
  rewrite sentence_pieces. unfold regex_summary.
  rewrite rmatch_seq, rmatch_stars, rmatch_seq.
  apply rmatch_digits; [exact Ht|]. cbv beta.
  rewrite rmatch_seq, rmatch_stars, rmatch_seq, rmatch_lit.
  rewrite rmatch_seq, rmatch_stars, rmatch_seq.
  apply rmatch_word; [exact Hd | intros; reflexivity | intros; reflexivity |].
  cbv beta.
  change (chars "ms**") with (chars "ms" ++ chars "**").
  rewrite <- app_assoc.
  rewrite rmatch_seq, rmatch_lit, rmatch_seq, rmatch_stars.
  rewrite rmatch_seq, rmatch_lit, rmatch_seq, rmatch_stars, rmatch_seq.
  apply rmatch_digits; [exact Hp|]. cbv beta.
  rewrite rmatch_seq, rmatch_stars, rmatch_seq, rmatch_lit.
  rewrite rmatch_seq, rmatch_stars, rmatch_seq.
  apply rmatch_digits; [exact Hf|]. cbv beta.
  rewrite rmatch_seq, rmatch_stars, rmatch_seq, rmatch_lit.
  rewrite rmatch_seq, rmatch_stars, rmatch_seq.
  apply rmatch_digits; [exact Hs|]. cbv beta.
  rewrite rmatch_seq, rmatch_stars, rmatch_lit.
  exact Hk.
Qed.

Lemma match_here_sentence (t d p f s post : list ascii) :
  well_shaped t d p f s ->
  match_here 5 regex_summary (sentence t d p f s ++ post)
  = Some (match_array t d p f s).
Proof.
  intros H. unfold match_here. apply rmatch_sentence; [exact H|].
  rewrite consumed_app. reflexivity.
Qed.

(** Inversion of the matcher, token by token. *)

Lemma is_star_eq (c : ascii) : is_star c = true -> c = "*"%char.
Proof.
  unfold is_star, code. intros H. apply Z.eqb_eq in H.
  rewrite <- (ascii_N_embedding c).
  replace (N_of_ascii c) with 42%N by lia. reflexivity.
Qed.

Lemma rmatch_stars_inv (s : list ascii) (caps : captures)
    (k : list ascii -> captures -> option captures) (v : captures) :
  rmatch stars s caps k = Some v ->
  exists rest, s = chars "**" ++ rest /\ k rest caps = Some v.
Proof.
  destruct s as [|c1 [|c2 rest]]; simpl; try discriminate.
  - destruct (is_star c1); discriminate.
  - destruct (is_star c1) eqn:H1; [|discriminate].
    destruct (is_star c2) eqn:H2; [|discriminate].
    apply is_star_eq in H1, H2. subst. intros Hk. exists rest.
    split; [reflexivity | exact Hk].
Qed.

Lemma rmatch_lit_inv (cs s : list ascii) (caps : captures)
    (k : list ascii -> captures -> option captures) (v : captures) :
  rmatch (Lit cs) s caps k = Some v ->
  exists rest, s = cs ++ rest /\ k rest caps = Some v.
Proof.
  simpl. destruct (match_lit cs s) as [rest|] eqn:Hm; [|discriminate].
  intros Hk. exists rest. split; [apply match_lit_inv; exact Hm | exact Hk].
Qed.

Lemma rmatch_many1_inv (p : ascii -> bool) (n : nat) (s : list ascii)
    (caps : captures) (k : list ascii -> captures -> option captures)
    (v : captures) :
  rmatch (Group n (Many1 p)) s caps k = Some v ->
  exists ds rest,
    s = ds ++ rest /\ ds <> [] /\ Forall (fun c => p c = true) ds
    /\ k rest (<[n := Some ds]> caps) = Some v.
Proof.
  simpl. destruct s as [|c s]; [discriminate|].
  destruct (p c) eqn:Hc; [|discriminate].
  intros Hg. apply greedy_inv in Hg.
  destruct Hg as (ds & rest & -> & Hall & Hk).
  exists (c :: ds), rest. split; [reflexivity|]. split; [discriminate|].
  split; [constructor; assumption|].
  change (c :: ds ++ rest) with ((c :: ds) ++ rest) in Hk.
  rewrite consumed_app in Hk. exact Hk.
Qed.

(** One step of the inversion: the next token of the pattern is split off
    the hypothesis [H] about the rest of the match. *)
Ltac split_stars H r :=
  rewrite rmatch_seq in H; apply rmatch_stars_inv in H;
  destruct H as (r & -> & H).

Ltac split_lit H r :=
  rewrite rmatch_seq in H; apply rmatch_lit_inv in H;
  destruct H as (r & -> & H).

Ltac split_group H x r Hne Hall :=
  rewrite rmatch_seq in H; apply rmatch_many1_inv in H;
  destruct H as (x & r & -> & Hne & Hall & H).

(** Soundness: a match of the pattern at the start of a text shows the
    sentence there. *)
Lemma rmatch_summary_inv (text : list ascii) (caps : captures)
    (k : list ascii -> captures -> option captures) (v : captures) :
  rmatch regex_summary text caps k = Some v ->
  exists t d p f s post,
    well_shaped t d p f s /\ text = sentence t d p f s ++ post.
Proof.
  unfold regex_summary. intros H.
  split_stars H r1. split_group H t r2 Ht1 Ht2. split_stars H r3.
  split_lit H r4.
  split_stars H r5. split_group H d r6 Hd1 Hd2. split_lit H r7.
  split_stars H r8.
  split_lit H r9.
  split_stars H r10. split_group H p r11 Hp1 Hp2. split_stars H r12.
  split_lit H r13.
  split_stars H r14. split_group H f r15 Hf1 Hf2. split_stars H r16.
  split_lit H r17.
  split_stars H r18. split_group H s r19 Hs1 Hs2. split_stars H r20.
  apply rmatch_lit_inv in H. destruct H as (post & -> & H).
  exists t, d, p, f, s, post. split.
  - repeat split; assumption.
  - rewrite sentence_pieces. reflexivity.
Qed.

(** ** The search of [exec] *)

Lemma exec_unfold (groups : nat) (r : regex) (s : list ascii) :
  exec groups r s
  = match match_here groups r s with
    | Some m => Some m
    | None =>
        match s with
        | [] => None
        | _ :: s' => exec groups r s'
        end
    end.
Proof. destruct s; reflexivity. Qed.

Lemma match_here_inv (text : list ascii) (m : captures) :
  match_here 5 regex_summary text = Some m ->
  exists t d p f s post,
    well_shaped t d p f s /\ text = sentence t d p f s ++ post
    /\ m = match_array t d p f s.
Proof.
  intros H. pose proof H as H'. unfold match_here in H'.
  apply rmatch_summary_inv in H'.
  destruct H' as (t & d & p & f & s & post & Hw & ->).
  rewrite (match_here_sentence _ _ _ _ _ post Hw) in H.
  exists t, d, p, f, s, post. repeat split; try apply Hw. congruence.
Qed.

Lemma occurs_at_0 (text : list ascii) :
  occurs_at text 0 -> match_here 5 regex_summary text <> None.
Proof.
  intros (t & d & p & f & s & pre & post & Hw & -> & Hlen).
  destruct pre; [|discriminate]. rewrite app_nil_l.
  rewrite (match_here_sentence _ _ _ _ _ post Hw). discriminate.
Qed.

Lemma occurs_at_S (c : ascii) (text : list ascii) (j : nat) :
  occurs_at (c :: text) (S j) -> occurs_at text j.
Proof.
  intros (t & d & p & f & s & pre & post & Hw & Htext & Hlen).
  destruct pre as [|c' pre]; [discriminate|].
  simpl in Htext, Hlen. injection Htext as _ ->. injection Hlen as Hlen.
  exists t, d, p, f, s, pre, post. repeat split; try apply Hw. exact Hlen.
Qed.

(** [exec] returns the match at the first index where the sentence
    occurs. *)
Lemma exec_first (text : list ascii) (i : nat) :
  occurs_at text i ->
  exists t d p f s pre post,
    well_shaped t d p f s
    /\ text = pre ++ sentence t d p f s ++ post
    /\ (forall j, (j < length pre)%nat -> ~ occurs_at text j)
    /\ exec 5 regex_summary text = Some (match_array t d p f s).
Proof.
  revert i. induction text as [|c text IH]; intros i Hocc.
  - destruct Hocc as (t & d & p & f & s & pre & post & _ & Htext & _).
    destruct pre; discriminate.
  - rewrite exec_unfold.
    destruct (match_here 5 regex_summary (c :: text)) as [m|] eqn:Hm.
    + apply match_here_inv in Hm.
      destruct Hm as (t & d & p & f & s & post & Hw & Htext & ->).
      exists t, d, p, f, s, [], post. simpl.
      repeat split; try apply Hw; [exact Htext | lia].
    + destruct i as [|i]; [apply occurs_at_0 in Hocc; congruence|].
      apply occurs_at_S in Hocc.
      destruct (IH i Hocc)
        as (t & d & p & f & s & pre & post & Hw & -> & Hfirst & Hexec).
      exists t, d, p, f, s, (c :: pre), post.
      repeat split; try apply Hw; [| exact Hexec].
      intros [|j] Hj Hoccj.
      * apply occurs_at_0 in Hoccj. congruence.
      * apply occurs_at_S in Hoccj. apply (Hfirst j); [simpl in Hj; lia|].
        exact Hoccj.
Qed.

Lemma results_of_match_array (t d p f s : list ascii) :
  well_shaped t d p f s ->
  results_of_match (match_array t d p f s)
  = {| total := round_double (digits_value t);
       passed := round_double (digits_value p);
       failed := round_double (digits_value f);
       skipped := round_double (digits_value s) |}.
Proof.
  intros (Ht & _ & Hp & Hf & Hs).
  unfold results_of_match, parseInt_group, match_array. simpl.
  rewrite !parseInt_digits by assumption. reflexivity.
Qed.

Lemma chars_of_list (l : list ascii) : chars (string_of_list_ascii l) = l.
Proof. apply list_ascii_of_string_of_list_ascii. Qed.

(** The slots of the sentence at a given index are determined by the
    text. *)
Lemma sentence_unique (t d p f s post t' d' p' f' s' post' : list ascii) :
  well_shaped t d p f s -> well_shaped t' d' p' f' s' ->
  sentence t d p f s ++ post = sentence t' d' p' f' s' ++ post' ->
  t = t' /\ d = d' /\ p = p' /\ f = f' /\ s = s'.
Proof.
  intros Hw Hw' Heq.
  pose proof (match_here_sentence _ _ _ _ _ post Hw) as H1.
  rewrite Heq, (match_here_sentence _ _ _ _ _ post' Hw') in H1.
  unfold match_array in H1. injection H1 as _ -> -> -> -> ->.
  repeat split.
Qed.

(** [getReferenceResults], in both scripts, returns what [extract] finds in
    the summary of the check run. *)
Lemma reference_of_extract (e : env) (checkName text : string)
    (check : check_run) (r : Results) (w : world) :
  find_check e checkName = Some check ->
  summary check = Str text ->
  extract text = Some r ->
  Ts.getReferenceResults e checkName w = (Normal r, w)
  /\ Mjs.getReferenceResults e checkName w = (Normal r, w).
Proof.
  intros Hfind Hsum Hex.
  unfold Ts.getReferenceResults, Mjs.getReferenceResults.
  rewrite Hfind, Hsum. cbn [falsy to_string].
  unfold extract in Hex.
  destruct (exec 5 regex_summary (chars text)) as [m|] eqn:Hm;
    [|discriminate].
  injection Hex as <-.
  destruct text as [|c text]; [vm_compute in Hm; discriminate|].
  cbn [falsy to_string].
  change (String.eqb (String c text) "") with false. cbv iota.
  split; reflexivity.
Qed.


(** ** Writing a number and reading it back *)











(** C10, as stated, fails: the summary [odd_summary] is the sentence with
    the numbers 9007199254740993, 9007199254740993, 0 and 0, and what both
    scripts return for it has total = passed = 9007199254740992. *)
Lemma C10_counterexample :
  chars odd_summary
  = sentence (chars "9007199254740993") (chars "7")
             (chars "9007199254740993") (chars "0") (chars "0")
  /\ digits_value (chars "9007199254740993") = 9007199254740993
  /\ Ts.getReferenceResults
       (document_env [] [ {| name := "h2spec"; summary := Str odd_summary |} ])
       "h2spec" empty_world
     = (Normal {| total := Int 9007199254740992;
                  passed := Int 9007199254740992;
                  failed := Int 0; skipped := Int 0 |}, empty_world)
  /\ Mjs.getReferenceResults
       (document_env [] [ {| name := "h2spec"; summary := Str odd_summary |} ])
       "h2spec" empty_world
     = (Normal {| total := Int 9007199254740992;
                  passed := Int 9007199254740992;
                  failed := Int 0; skipped := Int 0 |}, empty_world).
Proof. repeat split; vm_compute; reflexivity. Qed.

(** C10, amended. The pattern is searched for, not anchored: whenever the
    summary of the check run contains the sentence somewhere, whatever
    stands before and after it, [getReferenceResults] (in both scripts)
    succeeds and returns, for the first place of the text where the
    sentence occurs, the doubles nearest to its four numbers, which are
    the numbers themselves up to 2^53; they are those of the given
    sentence when no occurrence starts before it. *)
Theorem C10_unanchored_first_occurrence (e : env) (checkName : string)
    (check : check_run) (before after t d p f s : list ascii) (w : world) :
  well_shaped t d p f s ->
  find_check e checkName = Some check ->
  summary check
  = Str (string_of_list_ascii (before ++ sentence t d p f s ++ after)) ->
  exists t' d' p' f' s' pre post,
    well_shaped t' d' p' f' s'
    /\ before ++ sentence t d p f s ++ after
       = pre ++ sentence t' d' p' f' s' ++ post
    /\ (length pre <= length before)%nat
    /\ (forall j, (j < length pre)%nat ->
          ~ occurs_at (before ++ sentence t d p f s ++ after) j)
    /\ (length pre = length before ->
          t' = t /\ p' = p /\ f' = f /\ s' = s)
    /\ Ts.getReferenceResults e checkName w
       = (Normal {| total := round_double (digits_value t');
                    passed := round_double (digits_value p');
                    failed := round_double (digits_value f');
                    skipped := round_double (digits_value s') |}, w)
    /\ Mjs.getReferenceResults e checkName w
       = (Normal {| total := round_double (digits_value t');
                    passed := round_double (digits_value p');
                    failed := round_double (digits_value f');
                    skipped := round_double (digits_value s') |}, w)
    /\ (forall v, In v [t'; p'; f'; s'] -> digits_value v <= 2 ^ 53 ->
          round_double (digits_value v) = Int (digits_value v)).
Proof.
  intros Hw Hfind Hsum.
  assert (Hocc : occurs_at (before ++ sentence t d p f s ++ after)
                           (length before)).
  { exists t, d, p, f, s, before, after. repeat split; apply Hw. }
  destruct (exec_first _ _ Hocc)
    as (t' & d' & p' & f' & s' & pre & post & Hw' & Htext & Hfirst & Hexec).
  exists t', d', p', f', s', pre, post.
  split; [exact Hw'|]. split; [exact Htext|].
  split; [|split; [|split; [|split; [|split]]]].
  - destruct (Nat.le_gt_cases (length pre) (length before)) as [Hle | Hgt];
      [exact Hle|].
    exfalso. exact (Hfirst _ Hgt Hocc).
  - exact Hfirst.
  - intros Hlen.
    assert (Hsplit : before = pre
                     /\ sentence t d p f s ++ after
                        = sentence t' d' p' f' s' ++ post).
    { apply app_inj_1; [symmetry; exact Hlen | exact Htext]. }
    destruct Hsplit as [_ Hsame].
    destruct (sentence_unique _ _ _ _ _ _ _ _ _ _ _ _ Hw Hw' Hsame)
      as (-> & _ & -> & -> & ->).
    repeat split.
  - apply (reference_of_extract e checkName _ check _ w Hfind Hsum).
    unfold extract. rewrite chars_of_list, Hexec. simpl.
    rewrite (results_of_match_array _ _ _ _ _ Hw'). reflexivity.
  - apply (reference_of_extract e checkName _ check _ w Hfind Hsum).
    unfold extract. rewrite chars_of_list, Hexec. simpl.
    rewrite (results_of_match_array _ _ _ _ _ Hw'). reflexivity.
  - intros v Hin Hle. apply round_double_small.
    assert (Hv : all_digits v).
    { destruct Hw' as (Ht' & _ & Hp' & Hf' & Hs').
      destruct Hin as [<- | [<- | [<- | [<- | []]]]]; assumption. }
    pose proof (digits_value_nonneg v Hv). lia.
Qed.

Lemma C10_unanchored_first_occurrence_witness :
  exists t' d' p' f' s' pre post,
    well_shaped t' d' p' f' s'
    /\ chars "h2spec: "
       ++ sentence (chars "94") (chars "12") (chars "70") (chars "24")
                   (chars "0")
       ++ chars "; before: **90** tests were completed in **9ms** with **60** passed, **30** failed and **0** skipped"
       = pre ++ sentence t' d' p' f' s' ++ post
    /\ (length pre <= length (chars "h2spec: "))%nat
    /\ (forall j, (j < length pre)%nat ->
          ~ occurs_at
              (chars "h2spec: "
               ++ sentence (chars "94") (chars "12") (chars "70") (chars "24")
                           (chars "0")
               ++ chars "; before: **90** tests were completed in **9ms** with **60** passed, **30** failed and **0** skipped")
              j)
    /\ (length pre = length (chars "h2spec: ") ->
          t' = chars "94" /\ p' = chars "70" /\ f' = chars "24"
          /\ s' = chars "0")
    /\ Ts.getReferenceResults sample_env "embedded" empty_world
       = (Normal {| total := round_double (digits_value t');
                    passed := round_double (digits_value p');
                    failed := round_double (digits_value f');
                    skipped := round_double (digits_value s') |}, empty_world)
    /\ Mjs.getReferenceResults sample_env "embedded" empty_world
       = (Normal {| total := round_double (digits_value t');
                    passed := round_double (digits_value p');
                    failed := round_double (digits_value f');
                    skipped := round_double (digits_value s') |}, empty_world)
    /\ (forall v, In v [t'; p'; f'; s'] -> digits_value v <= 2 ^ 53 ->
          round_double (digits_value v) = Int (digits_value v)).
Proof.
  apply (C10_unanchored_first_occurrence sample_env "embedded"
           {| name := "embedded"; summary := Str embedded_summary |}).
  - repeat split; try discriminate; repeat constructor.
  - reflexivity.
  - reflexivity.
Defined.

(** The example of the source comment, and a summary that embeds the
    sentence. *)
Example extract_example :
  extract example_summary
  = Some {| total := Int 94; passed := Int 70;
            failed := Int 24; skipped := Int 0 |}.
Proof. vm_compute. reflexivity. Qed.

Example extract_embedded :
  extract embedded_summary
  = Some {| total := Int 94; passed := Int 70;
            failed := Int 24; skipped := Int 0 |}.
Proof. vm_compute. reflexivity. Qed.

(** ** Worked examples *)

Example round_double_examples :
  round_double 9007199254740993 = Int 9007199254740992
  /\ round_double 9007199254740995 = Int 9007199254740996
  /\ round_double (- 9007199254740993) = Int (- 9007199254740992)
  /\ nadd (nadd (Int 9007199254740992) (Int 1)) (Int 1)
     = Int 9007199254740992
  /\ nadd (Int 9007199254740992) (nadd (Int 1) (Int 1))
     = Int 9007199254740994
  /\ nsub (Int 9007199254740994) (Int 1) = Int 9007199254740992
  /\ round_double (2 ^ 1024) = Infinity false.
Proof. repeat split; vm_compute; reflexivity. Qed.

Example number_to_string_examples :
  number_to_string (Int 94) = "94"
  /\ number_to_string (Int (-3)) = "-3"
  /\ number_to_string (Int 9007199254740994) = "9007199254740994"
  /\ number_to_string (Int (2 ^ 67)) = "147573952589676410000"
  /\ number_to_string (Int (10 ^ 21)) = "1e+21"
  /\ number_to_string (Int (2 ^ 70)) = "1.1805916207174113e+21"
  /\ number_to_string NaN = "NaN"
  /\ number_to_string (Infinity true) = "-Infinity".
Proof. repeat split; vm_compute; reflexivity. Qed.

Example parseInt_examples :
  parseInt (chars "94") = Int 94
  /\ parseInt (chars "  +7") = Int 7
  /\ parseInt (chars "-3") = Int (-3)
  /\ parseInt (chars "12abc") = Int 12
  /\ parseInt (chars "1.5") = Int 1
  /\ parseInt (chars "") = NaN
  /\ parseInt (chars "many") = NaN
  /\ parseInt_value None = NaN.
Proof. repeat split; vm_compute; reflexivity. Qed.

Example verdict_examples :
  let reference := mkResults (Int 94) (Int 72) (Int 22) (Int 0) in
  outputLines (Ts.compare "h2spec" (mkResults (Int 94) (Int 70) (Int 24) (Int 0))
                          reference initial_state)
  = ["Regression detected in h2spec: 24 > 22"]
  /\ outputLines (Ts.compare "h2spec"
                    (mkResults (Int 94) (Int 74) (Int 20) (Int 0))
                    reference initial_state)
     = ["No regression in h2spec: failed count -2 (74 passed, 20 failed)"]
  /\ outputLines (Ts.compare "h2spec"
                    (mkResults (Int 94) (Int 72) (Int 22) (Int 0))
                    reference initial_state)
     = ["No regression in h2spec: failed count unchanged (72 passed, 22 failed)"].
Proof. repeat split; vm_compute; reflexivity. Qed.

(** A regression found before a suite without check run is lost: the run
    ends with status 0 and publishes nothing. *)
Example soft_stop_after_regression :
  Ts.main sample_env ["h2spec"; "fresh"] empty_world
  = (Exit 0,
     {| console := ["No " +:+ JSON_stringify "fresh" +:+ " check found"];
        comments := []; created := [] |}).
Proof. vm_compute. reflexivity. Qed.

(** In [index.mjs] the first suite whose two records are obtained ends the
    run: the comparison raises before anything is recorded. *)
Lemma Mjs_first_comparison_raises (e : env) (suite : string)
    (rest : list string) (current reference : Results) (w : world) :
  getCurrentResults e ("target/h2spec-" +:+ suite +:+ ".xml") w
  = (Normal current, w) ->
  Mjs.getReferenceResults e suite w = (Normal reference, w) ->
  Mjs.main e (suite :: rest) w
  = (Uncaught (ReferenceError "spec is not defined"), w).
Proof.
  intros Hc Hr. unfold Mjs.main. simpl Mjs.loop.
  unfold bind at 1. unfold bind at 1. rewrite Hc.
  unfold bind at 1. rewrite Hr.
  unfold bind at 1. rewrite Mjs_compare_raises. reflexivity.
Qed.

(** * Further properties of the code *)

(** ** The aggregator as a sum *)

Lemma magnitude_nonneg (a : number) : 0 <= magnitude a.
Proof. destruct a; cbn [magnitude]; lia. Qed.

Lemma magnitude_nneg (a : number) : magnitude (nneg a) = magnitude a.
Proof. destruct a; cbn [magnitude nneg]; lia. Qed.

(** Within [2^53] the sum of two doubles is the sum of their values. *)
Lemma nadd_exact (a b : number) (m n : Z) :
  magnitude a <= m -> magnitude b <= n -> m + n <= 2 ^ 53 ->
  nadd a b = xadd a b /\ magnitude (xadd a b) <= m + n.
Proof.
  intros Ha Hb Hmn.
  destruct a as [x| |s], b as [y| |s']; cbn [magnitude] in *;
    try (exfalso; lia).
  - split; [apply nadd_Int; lia | cbn [xadd magnitude]; lia].
  - split; [reflexivity | cbn; lia].
  - split; [reflexivity | cbn; lia].
  - split; [reflexivity | cbn; lia].
Qed.

Lemma nsub_exact (a b : number) (m n : Z) :
  magnitude a <= m -> magnitude b <= n -> m + n <= 2 ^ 53 ->
  nsub a b = xsub a b /\ magnitude (xsub a b) <= m + n.
Proof.
  intros Ha Hb Hmn. unfold nsub, xsub.
  apply nadd_exact; [exact Ha | rewrite magnitude_nneg; exact Hb | exact Hmn].
Qed.

Lemma xadd_0_l (a : number) : xadd (Int 0) a = a.
Proof. destruct a; reflexivity. Qed.

Lemma xadd_assoc (a b c : number) : xadd (xadd a b) c = xadd a (xadd b c).
Proof.
  destruct a as [x| |[|]], b as [y| |[|]], c as [z| |[|]]; cbn;
    try reflexivity.
  f_equal. lia.
Qed.

Lemma xadd_comm (a b : number) : xadd a b = xadd b a.
Proof.
  destruct a as [x| |[|]], b as [y| |[|]]; cbn; try reflexivity.
  f_equal. lia.
Qed.

Lemma exact_plus_assoc (a b c : Results) :
  exact_plus (exact_plus a b) c = exact_plus a (exact_plus b c).
Proof.
  unfold exact_plus. cbn [total passed failed skipped].
  rewrite !xadd_assoc. reflexivity.
Qed.

Lemma exact_plus_comm (a b : Results) : exact_plus a b = exact_plus b a.
Proof.
  unfold exact_plus.
  rewrite (xadd_comm (total a)), (xadd_comm (passed a)),
    (xadd_comm (failed a)), (xadd_comm (skipped a)).
  reflexivity.
Qed.

Lemma exact_plus_zero_l (a : Results) : exact_plus zero_results a = a.
Proof.
  destruct a as [t p f s]. unfold exact_plus.
  cbn [total passed failed skipped zero_results]. rewrite !xadd_0_l.
  reflexivity.
Qed.

Lemma exact_plus_zero_r (a : Results) : exact_plus a zero_results = a.
Proof. rewrite exact_plus_comm. apply exact_plus_zero_l. Qed.

(** One step of the loop adds the counts of the group alone. *)
Lemma exact_add_plus (r : Results) (ts : gmap string string) :
  exact_add_testsuite r ts
  = exact_plus r (exact_add_testsuite zero_results ts).
Proof.
  unfold exact_plus, exact_add_testsuite.
  cbn [total passed failed skipped zero_results].
  rewrite !xadd_0_l. reflexivity.
Qed.

Lemma exact_fold_plus (l : list (gmap string string)) (r : Results) :
  fold_left exact_add_testsuite l r
  = exact_plus r (fold_left exact_add_testsuite l zero_results).
Proof.
  revert r. induction l as [|ts l IH]; intros r; cbn [fold_left].
  - rewrite exact_plus_zero_r. reflexivity.
  - rewrite IH, (IH (exact_add_testsuite zero_results ts)).
    rewrite (exact_add_plus r), exact_plus_assoc. reflexivity.
Qed.

Lemma exact_fold_app (l1 l2 : list (gmap string string)) :
  fold_left exact_add_testsuite (l1 ++ l2) zero_results
  = exact_plus (fold_left exact_add_testsuite l1 zero_results)
               (fold_left exact_add_testsuite l2 zero_results).
Proof. rewrite fold_left_app. apply exact_fold_plus. Qed.

Lemma exact_fold_Permutation (l l' : list (gmap string string)) :
  Permutation l l' ->
  fold_left exact_add_testsuite l zero_results
  = fold_left exact_add_testsuite l' zero_results.
Proof.
  induction 1 as [|x l l' _ IH|x y l|l l' l'' _ IH1 _ IH2].
  - reflexivity.
  - change (x :: l) with ([x] ++ l). change (x :: l') with ([x] ++ l').
    rewrite !exact_fold_app, IH. reflexivity.
  - change (y :: x :: l) with ([y] ++ [x] ++ l).
    change (x :: y :: l) with ([x] ++ [y] ++ l).
    rewrite !exact_fold_app, <- !exact_plus_assoc.
    rewrite (exact_plus_comm (fold_left exact_add_testsuite [y] zero_results)).
    reflexivity.
  - congruence.
Qed.

Lemma group_weight_nonneg (ts : gmap string string) : 0 <= group_weight ts.
Proof.
  unfold group_weight.
  pose proof (magnitude_nonneg (parseInt_value (ts !! "@_tests"))).
  pose proof (magnitude_nonneg (parseInt_value (ts !! "@_failures"))).
  pose proof (magnitude_nonneg (parseInt_value (ts !! "@_errors"))).
  pose proof (magnitude_nonneg (parseInt_value (ts !! "@_skipped"))).
  lia.
Qed.

Lemma weight_nonneg (l : list (gmap string string)) : 0 <= weight l.
Proof.
  induction l as [|ts l IH]; cbn [weight fold_right]; [lia|].
  fold (weight l). pose proof (group_weight_nonneg ts). lia.
Qed.

Lemma weight_app (l1 l2 : list (gmap string string)) :
  weight (l1 ++ l2) = weight l1 + weight l2.
Proof.
  induction l1 as [|ts l1 IH]; [reflexivity|].
  change (weight ((ts :: l1) ++ l2))
    with (group_weight ts + weight (l1 ++ l2)).
  change (weight (ts :: l1)) with (group_weight ts + weight l1). lia.
Qed.

Lemma weight_Permutation (l l' : list (gmap string string)) :
  Permutation l l' -> weight l = weight l'.
Proof.
  induction 1 as [|x l l' _ IH|x y l|l l' l'' _ IH1 _ IH2].
  - reflexivity.
  - change (group_weight x + weight l = group_weight x + weight l'). lia.
  - change (group_weight y + (group_weight x + weight l)
            = group_weight x + (group_weight y + weight l)). lia.
  - lia.
Qed.

Lemma weight_In (l : list (gmap string string)) (ts : gmap string string) :
  In ts l -> group_weight ts <= weight l.
Proof.
  induction l as [|ts' l IH]; intros Hin; [destruct Hin|].
  cbn [weight fold_right]. fold (weight l).
  pose proof (weight_nonneg l). pose proof (group_weight_nonneg ts').
  destruct Hin as [-> | Hin]; [lia | specialize (IH Hin); lia].
Qed.

(** Every counter of the record is at most [B] in absolute value. *)
Lemma add_testsuite_exact (r : Results) (ts : gmap string string) (B : Z) :
  magnitude (total r) <= B -> magnitude (passed r) <= B ->
  magnitude (failed r) <= B -> magnitude (skipped r) <= B ->
  B + group_weight ts <= 2 ^ 53 ->
  add_testsuite r ts = exact_add_testsuite r ts
  /\ magnitude (total (add_testsuite r ts)) <= B + group_weight ts
  /\ magnitude (passed (add_testsuite r ts)) <= B + group_weight ts
  /\ magnitude (failed (add_testsuite r ts)) <= B + group_weight ts
  /\ magnitude (skipped (add_testsuite r ts)) <= B + group_weight ts.
Proof.
  intros Bt Bp Bf Bs Hb.
  unfold add_testsuite, exact_add_testsuite, group_weight in *.
  cbn [total passed failed skipped].
  set (t := parseInt_value (ts !! "@_tests")) in *.
  set (f := parseInt_value (ts !! "@_failures")) in *.
  set (er := parseInt_value (ts !! "@_errors")) in *.
  set (s := parseInt_value (ts !! "@_skipped")) in *.
  pose proof (magnitude_nonneg t). pose proof (magnitude_nonneg f).
  pose proof (magnitude_nonneg er). pose proof (magnitude_nonneg s).
  pose proof (magnitude_nonneg (total r)).
  destruct (nadd_exact f er (magnitude f) (magnitude er)) as [Efe Mfe];
    [lia | lia | lia |].
  rewrite Efe.
  destruct (nadd_exact (xadd f er) s (magnitude f + magnitude er)
              (magnitude s)) as [Efes Mfes]; [lia | lia | lia |].
  rewrite Efes.
  destruct (nsub_exact t (xadd (xadd f er) s) (magnitude t)
              (magnitude f + magnitude er + magnitude s)) as [Ed Md];
    [lia | lia | lia |].
  rewrite Ed.
  destruct (nadd_exact (total r) t B (magnitude t)) as [E1 M1];
    [lia | lia | lia |].
  destruct (nadd_exact (passed r) (xsub t (xadd (xadd f er) s)) B
              (magnitude t + (magnitude f + magnitude er + magnitude s)))
    as [E2 M2]; [lia | lia | lia |].
  destruct (nadd_exact (failed r) (xadd f er) B (magnitude f + magnitude er))
    as [E3 M3]; [lia | lia | lia |].
  destruct (nadd_exact (skipped r) s B (magnitude s)) as [E4 M4];
    [lia | lia | lia |].
  rewrite E1, E2, E3, E4. repeat split; lia.
Qed.

Lemma fold_exact (l : list (gmap string string)) :
  forall (r : Results) (B : Z),
    magnitude (total r) <= B -> magnitude (passed r) <= B ->
    magnitude (failed r) <= B -> magnitude (skipped r) <= B ->
    B + weight l <= 2 ^ 53 ->
    fold_left add_testsuite l r = fold_left exact_add_testsuite l r
    /\ magnitude (total (fold_left add_testsuite l r)) <= B + weight l
    /\ magnitude (passed (fold_left add_testsuite l r)) <= B + weight l
    /\ magnitude (failed (fold_left add_testsuite l r)) <= B + weight l
    /\ magnitude (skipped (fold_left add_testsuite l r)) <= B + weight l.
Proof.
  induction l as [|ts l IH]; intros r B Bt Bp Bf Bs Hb;
    cbn [fold_left weight fold_right] in *.
  - repeat split; lia.
  - fold (weight l) in *. pose proof (weight_nonneg l).
    destruct (add_testsuite_exact r ts B Bt Bp Bf Bs)
      as (E & Mt & Mp & Mf & Ms); [lia|].
    destruct (IH (add_testsuite r ts) (B + group_weight ts) Mt Mp Mf Ms)
      as (E' & Mt' & Mp' & Mf' & Ms'); [lia|].
    split; [rewrite E', E; reflexivity|]. repeat split; lia.
Qed.

Lemma aggregate_exact (l : list (gmap string string)) :
  weight l <= 2 ^ 53 ->
  aggregate l = fold_left exact_add_testsuite l zero_results
  /\ magnitude (total (aggregate l)) <= weight l
  /\ magnitude (passed (aggregate l)) <= weight l
  /\ magnitude (failed (aggregate l)) <= weight l
  /\ magnitude (skipped (aggregate l)) <= weight l.
Proof.
  intros Hb. unfold aggregate.
  destruct (fold_exact l zero_results 0) as (E & Mt & Mp & Mf & Ms);
    try (cbn; lia).
  repeat split; [exact E | lia | lia | lia | lia].
Qed.

Lemma aggregate_plus (l1 l2 : list (gmap string string)) :
  weight (l1 ++ l2) <= 2 ^ 53 ->
  aggregate (l1 ++ l2) = results_plus (aggregate l1) (aggregate l2).
Proof.
  intros Hb. pose proof Hb as Hb'. rewrite weight_app in Hb'.
  pose proof (weight_nonneg l1). pose proof (weight_nonneg l2).
  destruct (aggregate_exact _ Hb) as (E & _).
  destruct (aggregate_exact l1) as (E1 & Mt1 & Mp1 & Mf1 & Ms1); [lia|].
  destruct (aggregate_exact l2) as (E2 & Mt2 & Mp2 & Mf2 & Ms2); [lia|].
  rewrite E, exact_fold_app, <- E1, <- E2.
  unfold results_plus, exact_plus.
  destruct (nadd_exact _ _ _ _ Mt1 Mt2) as [-> _]; [lia|].
  destruct (nadd_exact _ _ _ _ Mp1 Mp2) as [-> _]; [lia|].
  destruct (nadd_exact _ _ _ _ Mf1 Mf2) as [-> _]; [lia|].
  destruct (nadd_exact _ _ _ _ Ms1 Ms2) as [-> _]; [lia|].
  reflexivity.
Qed.

Lemma aggregate_perm (l l' : list (gmap string string)) :
  weight l <= 2 ^ 53 -> Permutation l l' -> aggregate l = aggregate l'.
Proof.
  intros Hb Hperm.
  destruct (aggregate_exact l Hb) as (-> & _).
  destruct (aggregate_exact l') as (-> & _).
  - rewrite <- (weight_Permutation _ _ Hperm). exact Hb.
  - apply exact_fold_Permutation, Hperm.
Qed.

(** X1. The record [getCurrentResults] returns for a report made of two
    runs of groups is the field by field sum of the records of the two
    runs, as long as the absolute values of the attributes of the report
    sum to at most 2^53; in particular a [NaN] counter of either run stays
    [NaN]. *)
Theorem aggregate_app (e e1 e2 : env) (junitPath p1 p2 : string)
    (l1 l2 : list (gmap string string)) (w : world) :
  reports e junitPath = inr (l1 ++ l2) ->
  reports e1 p1 = inr l1 ->
  reports e2 p2 = inr l2 ->
  weight (l1 ++ l2) <= 2 ^ 53 ->
  exists r1 r2,
    getCurrentResults e1 p1 w = (Normal r1, w)
    /\ getCurrentResults e2 p2 w = (Normal r2, w)
    /\ getCurrentResults e junitPath w = (Normal (results_plus r1 r2), w).
Proof.
  intros H H1 H2 Hb. exists (aggregate l1), (aggregate l2).
  unfold getCurrentResults. rewrite H, H1, H2, (aggregate_plus _ _ Hb).
  repeat split.
Qed.

Lemma aggregate_app_witness :
  exists r1 r2,
    getCurrentResults
      (document_env [leaf "90" "20" "4" "0"; leaf "4" "0" "0" "0"] [])
      "./a.xml" empty_world
    = (Normal r1, empty_world)
    /\ getCurrentResults
         (document_env [leaf "12" "1" "0" "2"; leaf "-3" "0" "1" "0"] [])
         "./b.xml" empty_world
       = (Normal r2, empty_world)
    /\ getCurrentResults (document_env (map suite_element four_groups) [])
         "./h2spec.xml" empty_world
       = (Normal (results_plus r1 r2), empty_world).
Proof.
  apply (aggregate_app (document_env (map suite_element four_groups) [])
           (document_env [leaf "90" "20" "4" "0"; leaf "4" "0" "0" "0"] [])
           (document_env [leaf "12" "1" "0" "2"; leaf "-3" "0" "1" "0"] [])
           "./h2spec.xml" "./a.xml" "./b.xml"
           [group "90" "20" "4" "0"; group "4" "0" "0" "0"]
           [group "12" "1" "0" "2"; group "-3" "0" "1" "0"] empty_world);
    try reflexivity.
  vm_compute. discriminate.
Defined.

(** X2. The record returned by [getCurrentResults] does not depend on the
    order of the test groups in the document, as long as the absolute
    values of their attributes sum to at most 2^53. *)
Theorem aggregate_Permutation (e e' : env) (junitPath junitPath' : string)
    (l l' : list (gmap string string)) (w : world) :
  reports e junitPath = inr l ->
  reports e' junitPath' = inr l' ->
  Permutation l l' ->
  weight l <= 2 ^ 53 ->
  getCurrentResults e junitPath w = getCurrentResults e' junitPath' w.
Proof.
  intros Hl Hl' Hperm Hb. unfold getCurrentResults. rewrite Hl, Hl'.
  rewrite (aggregate_perm l l' Hb Hperm). reflexivity.
Qed.

Lemma aggregate_Permutation_witness :
  getCurrentResults sample_env "./h2spec.xml" empty_world
  = getCurrentResults swapped_env "./other.xml" empty_world.
Proof.
  apply (aggregate_Permutation sample_env swapped_env "./h2spec.xml"
           "./other.xml" sample_report (rev sample_report) empty_world).
  - reflexivity.
  - reflexivity.
  - apply Permutation_rev.
  - vm_compute. discriminate.
Defined.

(** ** When the counters add up *)

Lemma readable_or_not (ts : gmap string string) :
  group_weight ts <= 2 ^ 53 ->
  readable_group ts
  \/ unreadable "@_tests" ts \/ unreadable "@_failures" ts
  \/ unreadable "@_errors" ts \/ unreadable "@_skipped" ts.
Proof.
  unfold readable_group, numeric_group, unreadable, group_weight.
  pose proof (magnitude_nonneg (parseInt_value (ts !! "@_tests"))).
  pose proof (magnitude_nonneg (parseInt_value (ts !! "@_failures"))).
  pose proof (magnitude_nonneg (parseInt_value (ts !! "@_errors"))).
  pose proof (magnitude_nonneg (parseInt_value (ts !! "@_skipped"))).
  destruct (parseInt_value (ts !! "@_tests")) as [t| |?];
    [|tauto | cbn [magnitude] in *; lia].
  destruct (parseInt_value (ts !! "@_failures")) as [f| |?];
    [|tauto | cbn [magnitude] in *; lia].
  destruct (parseInt_value (ts !! "@_errors")) as [er| |?];
    [|tauto | cbn [magnitude] in *; lia].
  destruct (parseInt_value (ts !! "@_skipped")) as [s| |?];
    [|tauto | cbn [magnitude] in *; lia].
  intros _. left. exists t, f, er, s. repeat split.
Qed.

Lemma readable_adds_up (l : list (gmap string string)) :
  forall (r : Results) (B : Z),
    (exists t p f s, total r = Int t /\ passed r = Int p /\ failed r = Int f
                     /\ skipped r = Int s /\ t = p + f + s
                     /\ Z.abs t <= B /\ Z.abs p <= B /\ Z.abs f <= B
                     /\ Z.abs s <= B /\ Z.abs (p + f) <= B) ->
    Forall readable_group l ->
    B + weight l <= 2 ^ 53 ->
    exists t p f s,
      total (fold_left add_testsuite l r) = Int t
      /\ passed (fold_left add_testsuite l r) = Int p
      /\ failed (fold_left add_testsuite l r) = Int f
      /\ skipped (fold_left add_testsuite l r) = Int s
      /\ t = p + f + s
      /\ Z.abs t <= 2 ^ 53 /\ Z.abs (p + f) <= 2 ^ 53.
Proof.
  induction l as [|ts l IH]; intros r B Hr Hl Hb;
    cbn [fold_left weight fold_right] in *.
  - destruct Hr as (t & p & f & s & Ht & Hp & Hf & Hs & Hsum & Bt & _ & _
                    & _ & Bpf).
    exists t, p, f, s. repeat split; try assumption; lia.
  - fold (weight l) in *. pose proof (weight_nonneg l).
    inversion Hl as [|? ? (t' & f' & er' & s' & At & Af & Ae & As) Hl']; subst.
    destruct Hr as (t & p & f & s & Ht & Hp & Hf & Hs & Hsum & Bt & Bp & Bf
                    & Bs & Bpf).
    assert (Hw : group_weight ts
                 = Z.abs t' + Z.abs f' + Z.abs er' + Z.abs s').
    { unfold group_weight. rewrite At, Af, Ae, As. reflexivity. }
    apply (IH _ (B + group_weight ts)); [|exact Hl' | lia].
    exists (t + t'), (p + (t' - (f' + er' + s'))), (f + (f' + er')), (s + s').
    unfold add_testsuite. cbn [total passed failed skipped].
    rewrite Ht, Hp, Hf, Hs, At, Af, Ae, As.
    rewrite (nadd_Int t t') by lia.
    rewrite (nadd_Int f' er') by lia.
    rewrite (nadd_Int (f' + er') s') by lia.
    rewrite (nsub_Int t' (f' + er' + s')) by lia.
    rewrite (nadd_Int p _) by lia.
    rewrite (nadd_Int f _) by lia.
    rewrite (nadd_Int s s') by lia.
    repeat split; lia.
Qed.

(** X3. For a report whose attributes sum, in absolute value, to at most
    2^53, the record built by [getCurrentResults] satisfies
    [total == passed + failed + skipped] exactly when every attribute of
    every group is read as an integer; the signs of the attributes do not
    matter. *)
Theorem adds_up_iff_readable (l : list (gmap string string)) :
  weight l <= 2 ^ 53 ->
  adds_up (aggregate l) = true <-> Forall readable_group l.
Proof.
  intros Hb. split.
  - intros Hadd. apply List.Forall_forall. intros ts Hin.
    pose proof (weight_In l ts Hin) as Hts.
    destruct (readable_or_not ts) as [Hr | Hbad]; [lia | exact Hr |].
    exfalso.
    assert (Hp : passed (aggregate l) = NaN).
    { unfold aggregate.
      destruct Hbad as [H | [H | [H | H]]].
      - apply fold_unreadable_tests. apply List.Exists_exists. eauto.
      - apply fold_unreadable_failures. apply List.Exists_exists. eauto.
      - apply fold_unreadable_errors. apply List.Exists_exists. eauto.
      - apply fold_unreadable_skipped. apply List.Exists_exists. eauto. }
    unfold adds_up in Hadd. rewrite Hp in Hadd.
    cbn [nadd] in Hadd.
    destruct (total (aggregate l)); discriminate.
  - intros Hall.
    destruct (readable_adds_up l zero_results 0) as
      (t & p & f & s & Ht & Hp & Hf & Hs & Hsum & Bt & Bpf).
    + exists 0, 0, 0, 0. cbn. repeat split; lia.
    + exact Hall.
    + lia.
    + unfold adds_up, aggregate. rewrite Ht, Hp, Hf, Hs.
      rewrite (nadd_Int p f) by lia. rewrite (nadd_Int (p + f) s) by lia.
      cbn [neq]. lia.
Qed.

Lemma adds_up_iff_readable_witness :
  adds_up (aggregate four_groups) = true <-> Forall readable_group four_groups.
Proof.
  apply (adds_up_iff_readable four_groups). vm_compute. discriminate.
Defined.

(** ** The verdict of one suite, continued *)

(** X4. In the branch without regression the [diff] is never a "+" text:
    it is [undefined] when one of the two failure counts is [NaN], and
    otherwise "unchanged" when the counts are equal and "-" followed by
    the double [reference.failed - current.failed] when they are not; for
    integer counts that difference is the exact one while it is at most
    2^53. *)
Theorem diff_text_cases (current reference : Results) :
  ngt (failed current) (failed reference) = false ->
  (forall x, diff_text current reference <> Some ("+" +:+ x))
  /\ (failed current = NaN \/ failed reference = NaN ->
      diff_text current reference = None)
  /\ (failed current <> NaN -> failed reference <> NaN ->
      diff_text current reference
      = Some (if neq (failed current) (failed reference) then "unchanged"
              else "-" +:+ number_to_string
                             (nsub (failed reference) (failed current))))
  /\ (forall c r, failed current = Int c -> failed reference = Int r ->
      c <= r
      /\ neq (failed current) (failed reference) = (c =? r)
      /\ (r - c <= 2 ^ 53 ->
          nsub (failed reference) (failed current) = Int (r - c))).
Proof.
  intros Hgt. unfold diff_text, nlt. rewrite Hgt.
  split; [|split; [|split]].
  - intros x.
    destruct (neq _ _); [discriminate|].
    destruct (ngt (failed reference) (failed current)); [|discriminate].
    intros H. injection H as H. discriminate H.
  - intros [H | H]; rewrite H in *.
    + destruct (failed reference); reflexivity.
    + destruct (failed current); reflexivity.
  - intros Hc Hr.
    destruct (failed current) as [c| |[|]], (failed reference) as [r| |[|]];
      try congruence; cbn [ngt neq negb andb Bool.eqb] in *;
      try discriminate; try reflexivity.
    destruct (c =? r) eqn:Heq; [reflexivity|].
    assert (Hlt : (c <? r) = true) by lia. rewrite Hlt. reflexivity.
  - intros c r Hc Hr. rewrite Hc, Hr in *. cbn [ngt neq] in *.
    split; [lia|]. split; [reflexivity|].
    intros Hb. apply nsub_Int. lia.
Qed.

Lemma diff_text_cases_witness :
  (forall x,
      diff_text (mkResults (Int 94) (Int 74) (Int 20) (Int 0))
                (mkResults (Int 94) (Int 72) (Int 22) (Int 0))
      <> Some ("+" +:+ x))
  /\ (failed (mkResults (Int 94) (Int 74) (Int 20) (Int 0)) = NaN
      \/ failed (mkResults (Int 94) (Int 72) (Int 22) (Int 0)) = NaN ->
      diff_text (mkResults (Int 94) (Int 74) (Int 20) (Int 0))
                (mkResults (Int 94) (Int 72) (Int 22) (Int 0)) = None)
  /\ (failed (mkResults (Int 94) (Int 74) (Int 20) (Int 0)) <> NaN ->
      failed (mkResults (Int 94) (Int 72) (Int 22) (Int 0)) <> NaN ->
      diff_text (mkResults (Int 94) (Int 74) (Int 20) (Int 0))
                (mkResults (Int 94) (Int 72) (Int 22) (Int 0))
      = Some (if neq (failed (mkResults (Int 94) (Int 74) (Int 20) (Int 0)))
                     (failed (mkResults (Int 94) (Int 72) (Int 22) (Int 0)))
              then "unchanged"
              else "-" +:+ number_to_string
                             (nsub
                                (failed (mkResults (Int 94) (Int 72) (Int 22)
                                           (Int 0)))
                                (failed (mkResults (Int 94) (Int 74) (Int 20)
                                           (Int 0))))))
  /\ (forall c r,
      failed (mkResults (Int 94) (Int 74) (Int 20) (Int 0)) = Int c ->
      failed (mkResults (Int 94) (Int 72) (Int 22) (Int 0)) = Int r ->
      c <= r
      /\ neq (failed (mkResults (Int 94) (Int 74) (Int 20) (Int 0)))
             (failed (mkResults (Int 94) (Int 72) (Int 22) (Int 0)))
         = (c =? r)
      /\ (r - c <= 2 ^ 53 ->
          nsub (failed (mkResults (Int 94) (Int 72) (Int 22) (Int 0)))
               (failed (mkResults (Int 94) (Int 74) (Int 20) (Int 0)))
          = Int (r - c))).
Proof.
  apply (diff_text_cases (mkResults (Int 94) (Int 74) (Int 20) (Int 0))
                         (mkResults (Int 94) (Int 72) (Int 22) (Int 0))).
  reflexivity.
Defined.

(** X5. A report in which some group has an unreadable [failures] or
    [errors] attribute is never a regression, whatever the reference: its
    failure count is [NaN], the flag is left as it was and the recorded
    line reads "failed count undefined (NaN passed, NaN failed)". *)
Theorem unreadable_failures_not_flagged (l : list (gmap string string))
    (suite : string) (reference : Results) (st : loop_state) :
  Exists (unreadable "@_failures") l \/ Exists (unreadable "@_errors") l ->
  Ts.compare suite (aggregate l) reference st
  = {| regressionsDetected := regressionsDetected st;
       outputLines :=
         outputLines st ++
         ["No regression in " +:+ suite
          +:+ ": failed count undefined (NaN passed, NaN failed)"] |}.
Proof.
  intros Hbad.
  assert (Hnan : failed (aggregate l) = NaN /\ passed (aggregate l) = NaN).
  { unfold aggregate. destruct Hbad as [H | H].
    - apply fold_unreadable_failures. exact H.
    - apply fold_unreadable_errors. exact H. }
  destruct Hnan as [Hf Hp].
  unfold Ts.compare, no_regression_line, diff_text, nlt.
  rewrite Hf, Hp. simpl ngt. simpl neq.
  destruct (failed reference); reflexivity.
Qed.

Lemma unreadable_failures_not_flagged_witness :
  Ts.compare "h2spec" (aggregate unreadable_failures_report)
             (mkResults (Int 94) (Int 94) (Int 0) (Int 0)) initial_state
  = {| regressionsDetected := regressionsDetected initial_state;
       outputLines :=
         outputLines initial_state ++
         ["No regression in " +:+ "h2spec"
          +:+ ": failed count undefined (NaN passed, NaN failed)"] |}.
Proof.
  apply (unreadable_failures_not_flagged unreadable_failures_report "h2spec"
           (mkResults (Int 94) (Int 94) (Int 0) (Int 0)) initial_state).
  left. apply Exists_cons_hd. vm_compute. reflexivity.
Defined.

(** ** What the TypeScript script publishes *)

Lemma compare_line (suite : string) (current reference : Results)
    (st : loop_state) :
  outputLines (Ts.compare suite current reference st)
  = outputLines st ++ [verdict_line suite current reference].
Proof.
  unfold Ts.compare, verdict_line.
  destruct (ngt (failed current) (failed reference)); reflexivity.
Qed.

Lemma compare_all_lines (cur ref : string -> Results) (suites : list string)
    (st : loop_state) :
  outputLines (compare_all cur ref suites st)
  = outputLines st ++ map (fun s => verdict_line s (cur s) (ref s)) suites.
Proof.
  revert st. induction suites as [|s suites IH]; intros st; simpl.
  - rewrite app_nil_r. reflexivity.
  - rewrite IH, compare_line, <- app_assoc. reflexivity.
Qed.

(** X6. When every suite yields its two records, the script publishes one
    line per suite, in the order of the list: the same text goes to the
    comment (if the run belongs to a pull request) and to the summary of
    the one check it creates, the check is published before the exit, and
    the run ends with [process.exit(1)] exactly when a suite regressed. *)
Theorem main_publishes_report (e : env) (cur ref : string -> Results)
    (suites : list string) (w : world) :
  (forall s, In s suites -> compared e s (cur s) (ref s)) ->
  Ts.main e suites w
  = (if existsb (regressed cur ref) suites then Exit 1 else Normal tt,
     published e (existsb (regressed cur ref) suites)
               (report_body cur ref suites) w).
Proof.
  intros H. unfold Ts.main. unfold bind at 1.
  rewrite (loop_compared e cur ref suites initial_state w H).
  pose proof (compare_all_flag cur ref suites initial_state) as Hflag.
  pose proof (compare_all_lines cur ref suites initial_state) as Hlines.
  simpl in Hflag, Hlines. rewrite Hflag, Hlines.
  unfold published, report_body.
  destruct (issue_number e); destruct (existsb (regressed cur ref) suites);
    reflexivity.
Qed.

Lemma main_publishes_report_witness :
  Ts.main sample_env ["quiet"; "h2spec"] empty_world
  = (if existsb (regressed sample_current sample_reference)
                ["quiet"; "h2spec"]
     then Exit 1 else Normal tt,
     published sample_env
       (existsb (regressed sample_current sample_reference)
                ["quiet"; "h2spec"])
       (report_body sample_current sample_reference ["quiet"; "h2spec"])
       empty_world).
Proof.
  apply (main_publishes_report sample_env sample_current sample_reference
           ["quiet"; "h2spec"] empty_world).
  intros s [<- | [<- | []]] w; split; vm_compute; reflexivity.
Defined.

Example published_sample :
  Ts.main sample_env ["quiet"; "h2spec"] empty_world
  = (Exit 1,
     {| console := ["Leaving comment on PR #7"];
        comments :=
          [(Some 7,
            "No regression in quiet: failed count unchanged (0 passed, 0 failed)"
            +:+ newline +:+ "Regression detected in h2spec: 24 > 22")];
        created :=
          [("failure",
            "No regression in quiet: failed count unchanged (0 passed, 0 failed)"
            +:+ newline +:+ "Regression detected in h2spec: 24 > 22")] |}).
Proof. vm_compute. reflexivity. Qed.

Lemma getCurrentResults_world (e : env) (junitPath : string) (w w' : world)
    (c : completion Results) :
  getCurrentResults e junitPath w = (c, w') -> w' = w.
Proof.
  unfold getCurrentResults.
  destruct (reports e junitPath); intros H; injection H as _ <-; reflexivity.
Qed.

Lemma Ts_reference_world (e : env) (checkName : string) (w w' : world)
    (c : completion Results) :
  Ts.getReferenceResults e checkName w = (c, w') ->
  comments w' = comments w /\ created w' = created w.
Proof.
  unfold Ts.getReferenceResults.
  destruct (find_check e checkName) as [check|];
    [|intros H; injection H as _ <-; split; reflexivity].
  destruct (falsy (summary check));
    [intros H; injection H as _ <-; split; reflexivity|].
  destruct (exec 5 regex_summary _);
    intros H; injection H as _ <-; split; reflexivity.
Qed.

(** The loop writes to the console only. *)
Lemma Ts_loop_world (e : env) (suites : list string) (st : loop_state)
    (w w' : world) (c : completion loop_state) :
  Ts.loop e suites st w = (c, w') ->
  comments w' = comments w /\ created w' = created w.
Proof.
  revert st w. induction suites as [|s suites IH]; intros st w.
  - intros H. injection H as _ <-. split; reflexivity.
  - simpl. unfold bind at 1.
    destruct (getCurrentResults e ("./" +:+ s +:+ ".xml") w)
      as [[cur | code | err] w1] eqn:Hc;
      apply getCurrentResults_world in Hc; subst w1;
      try (intros H; injection H as _ <-; split; reflexivity).
    unfold bind at 1.
    destruct (Ts.getReferenceResults e s w) as [[r | code | err] w2] eqn:Hr;
      apply Ts_reference_world in Hr; destruct Hr as [Hr1 Hr2];
      try (intros H; injection H as _ <-; split; assumption).
    intros H. apply IH in H. destruct H as [H1 H2]. split; congruence.
Qed.

(** From the loop on: either nothing is published, or one check whose
    conclusion agrees with the end of the run. *)
Lemma check_agrees_with_exit (e : env) (suites : list string) (w : world) :
  (fst (Ts.main e suites w) <> Normal tt
   /\ comments (snd (Ts.main e suites w)) = comments w
   /\ created (snd (Ts.main e suites w)) = created w)
  \/ (exists body,
        fst (Ts.main e suites w) = Exit 1
        /\ created (snd (Ts.main e suites w))
           = created w ++ [("failure", body)])
  \/ (exists body,
        fst (Ts.main e suites w) = Normal tt
        /\ created (snd (Ts.main e suites w))
           = created w ++ [("success", body)]).
Proof.
  unfold Ts.main, bind.
  destruct (Ts.loop e suites initial_state w) as [[st | code | err] w1] eqn:Hl;
    apply Ts_loop_world in Hl; destruct Hl as [Hc Hk].
  - right.
    destruct (regressionsDetected st) eqn:Hflag; [left | right];
      exists (join newline (outputLines st));
      destruct (issue_number e); simpl; rewrite Hk; split; reflexivity.
  - left. simpl. repeat split; [discriminate | assumption | assumption].
  - left. simpl. repeat split; [discriminate | assumption | assumption].
Qed.

(** X8. The report of a suite is read before its reference is looked up:
    when the loop reaches a suite whose report cannot be read, the run ends
    with that exception (status 1) and publishes nothing, whether or not
    the suite has a check run; the soft stop does not apply. *)
Theorem unreadable_report_is_fatal (e : env) (pre post : list string)
    (suite : string) (err : js_error) (w : world) :
  (forall s, In s pre -> exists c r, compared e s c r) ->
  reports e ("./" +:+ suite +:+ ".xml") = inl err ->
  Ts.main e (pre ++ suite :: post) w = (Uncaught err, w).
Proof.
  intros Hpre Hrep.
  destruct (loop_completes e pre initial_state Hpre) as [st' Hst'].
  unfold Ts.main. unfold bind at 1. rewrite loop_app.
  unfold bind at 1. rewrite Hst'. simpl.
  unfold bind at 1. unfold getCurrentResults. rewrite Hrep. reflexivity.
Qed.

Lemma unreadable_report_is_fatal_witness :
  Ts.main sample_env (["quiet"] ++ "absent" :: ["h2spec"]) empty_world
  = (Uncaught (Error "ENOENT: no such file or directory"), empty_world).
Proof.
  apply (unreadable_report_is_fatal sample_env ["quiet"] ["h2spec"] "absent"
           (Error "ENOENT: no such file or directory") empty_world).
  - intros s Hs. exists (sample_current s), (sample_reference s).
    destruct Hs as [<- | []]; intros w; split; vm_compute; reflexivity.
  - reflexivity.
Defined.

(** ** The check run that is compared against *)

Lemma find_check_none (e : env) (checkName : string) :
  find_check e checkName = None
  <-> Forall (fun c => name c <> checkName) (check_runs e).
Proof.
  unfold find_check. induction (check_runs e) as [|c l IH]; simpl.
  - split; [constructor | reflexivity].
  - destruct (String.eqb (name c) checkName) eqn:Heq.
    + apply String.eqb_eq in Heq. split; [discriminate|].
      intros H. inversion H; subst. congruence.
    + apply String.eqb_neq in Heq. rewrite IH. split.
      * intros H. constructor; assumption.
      * intros H. inversion H; assumption.
Qed.

(** X9. Among the listed check runs the first one with the name of the
    suite is the one compared against, whatever is listed after it (also
    further check runs of the same name). *)
Theorem find_check_first (e : env) (checkName : string)
    (pre post : list check_run) (c : check_run) :
  check_runs e = pre ++ c :: post ->
  name c = checkName ->
  Forall (fun c' => name c' <> checkName) pre ->
  find_check e checkName = Some c.
Proof.
  unfold find_check. intros -> Hname Hpre.
  induction Hpre as [|c' pre Hc' _ IH]; simpl.
  - apply String.eqb_eq in Hname. rewrite Hname. reflexivity.
  - apply String.eqb_neq in Hc'. rewrite Hc'. exact IH.
Qed.

Lemma find_check_first_witness :
  find_check rerun_env "h2spec"
  = Some {| name := "h2spec"; summary := Str sample_summary |}.
Proof.
  apply (find_check_first rerun_env "h2spec"
           [ {| name := "build"; summary := Null |} ]
           [ {| name := "h2spec"; summary := Str example_summary |} ]).
  - reflexivity.
  - reflexivity.
  - repeat constructor. discriminate.
Defined.

(** ** When the reference can be extracted *)

Lemma exec_occurs (text : list ascii) (m : captures) :
  exec 5 regex_summary text = Some m -> exists i, occurs_at text i.
Proof.
  induction text as [|c text IH]; rewrite exec_unfold;
    destruct (match_here 5 regex_summary _) as [m'|] eqn:Hm.
  - intros _. apply match_here_inv in Hm.
    destruct Hm as (t & d & p & f & s & post & Hw & Htext & _).
    exists 0%nat, t, d, p, f, s, [], post. repeat split; try apply Hw.
    exact Htext.
  - discriminate.
  - intros _. apply match_here_inv in Hm.
    destruct Hm as (t & d & p & f & s & post & Hw & Htext & _).
    exists 0%nat, t, d, p, f, s, [], post. repeat split; try apply Hw.
    exact Htext.
  - intros H. destruct (IH H)
      as (i & t & d & p & f & s & pre & post & Hw & -> & Hlen).
    exists (S i), t, d, p, f, s, (c :: pre), post.
    repeat split; try apply Hw. simpl. rewrite Hlen. reflexivity.
Qed.

(** X10. For a check run that carries a summary text, the reference is
    obtained exactly when the sentence occurs somewhere in the text: if it
    does, both scripts return a record; if it does not, the TypeScript
    script ends with [process.exit(1)] and [index.mjs] with an uncaught
    [TypeError]. *)
Theorem reference_iff_sentence (e : env) (checkName text : string)
    (check : check_run) (w : world) :
  find_check e checkName = Some check ->
  summary check = Str text ->
  ((exists i, occurs_at (chars text) i) ->
     exists r, Ts.getReferenceResults e checkName w = (Normal r, w)
               /\ Mjs.getReferenceResults e checkName w = (Normal r, w))
  /\ (~ (exists i, occurs_at (chars text) i) ->
       fst (Ts.getReferenceResults e checkName w) = Exit 1
       /\ exists err, Mjs.getReferenceResults e checkName w
                      = (Uncaught (TypeError err), w)).
Proof.
  intros Hfind Hsum. split.
  - intros [i Hocc].
    destruct (exec_first _ _ Hocc)
      as (t & d & p & f & s & pre & post & Hw & _ & _ & Hexec).
    exists (results_of_match (match_array t d p f s)).
    apply (reference_of_extract e checkName text check _ w Hfind Hsum).
    unfold extract. rewrite Hexec. reflexivity.
  - intros Hno.
    assert (Hexec : exec 5 regex_summary (chars text) = None).
    { destruct (exec 5 regex_summary (chars text)) as [m|] eqn:Hm;
        [|reflexivity].
      exfalso. apply Hno. exact (exec_occurs _ _ Hm). }
    unfold Ts.getReferenceResults, Mjs.getReferenceResults.
    rewrite Hfind, Hsum. cbn [to_string]. rewrite Hexec. split.
    + destruct (falsy (Str text)); reflexivity.
    + eexists. reflexivity.
Qed.

Lemma reference_iff_sentence_witness :
  ((exists i, occurs_at (chars embedded_summary) i) ->
     exists r,
       Ts.getReferenceResults sample_env "embedded" empty_world
       = (Normal r, empty_world)
       /\ Mjs.getReferenceResults sample_env "embedded" empty_world
          = (Normal r, empty_world))
  /\ (~ (exists i, occurs_at (chars embedded_summary) i) ->
       fst (Ts.getReferenceResults sample_env "embedded" empty_world) = Exit 1
       /\ exists err,
            Mjs.getReferenceResults sample_env "embedded" empty_world
            = (Uncaught (TypeError err), empty_world)).
Proof.
  apply (reference_iff_sentence sample_env "embedded" embedded_summary
           {| name := "embedded"; summary := Str embedded_summary |}
           empty_world); reflexivity.
Defined.

(** ** The list of suites *)

Lemma split_on_nonempty (sep : ascii) (s : list ascii) : split_on sep s <> [].
Proof.
  destruct s as [|c s]; simpl; [discriminate|].
  destruct (Ascii.eqb c sep); [discriminate|].
  destruct (split_on sep s); discriminate.
Qed.

Lemma split_on_join (sep : ascii) (s : list ascii) :
  join (String sep "") (map string_of_list_ascii (split_on sep s))
  = string_of_list_ascii s.
Proof.
  induction s as [|c s IH]; [reflexivity|].
  pose proof (split_on_nonempty sep s) as Hne.
  cbn [split_on string_of_list_ascii].
  destruct (split_on sep s) as [|piece pieces] eqn:Hs; [congruence|].
  cbn [map] in IH.
  destruct (Ascii.eqb c sep) eqn:Hc.
  - apply Ascii.eqb_eq in Hc. subst c.
    cbn [map]. change (join (String sep "")
                         (string_of_list_ascii [] :: string_of_list_ascii piece
                          :: map string_of_list_ascii pieces))
      with (String sep (join (String sep "")
                          (string_of_list_ascii piece
                           :: map string_of_list_ascii pieces))).
    rewrite IH. reflexivity.
  - cbn [map string_of_list_ascii]. rewrite <- IH.
    destruct pieces; reflexivity.
Qed.

Lemma split_on_free (sep : ascii) (s : list ascii) :
  Forall (Forall (fun c => Ascii.eqb c sep = false)) (split_on sep s).
Proof.
  induction s as [|c s IH]; simpl.
  - repeat constructor.
  - destruct (Ascii.eqb c sep) eqn:Hc.
    + constructor; [constructor | exact IH].
    + destruct (split_on sep s) as [|piece pieces]; [repeat constructor; exact Hc|].
      inversion IH; subst. constructor; [|assumption].
      constructor; assumption.
Qed.

Lemma split_nonempty (s : string) (sep : ascii) : split s sep <> [].
Proof.
  unfold split. intros H. apply map_eq_nil in H.
  exact (split_on_nonempty _ _ H).
Qed.

(** X11. The list of suites read from the input is never empty (an empty
    input gives the one suite with the empty name), no suite name contains
    a comma, and joining the names with commas gives the input back. *)
Theorem split_suites (suitesInput : string) :
  split suitesInput ","%char <> []
  /\ Forall comma_free (split suitesInput ","%char)
  /\ join "," (split suitesInput ","%char) = suitesInput.
Proof.
  unfold split. split; [|split].
  - intros H. apply map_eq_nil in H. exact (split_on_nonempty _ _ H).
  - pose proof (split_on_free ","%char (chars suitesInput)) as H.
    induction H as [|piece pieces Hp _ IH]; simpl; constructor;
      [|exact IH].
    unfold comma_free. rewrite chars_of_list. exact Hp.
  - change "," with (String ","%char ""). rewrite split_on_join.
    apply string_of_list_ascii_of_string.
Qed.

Example split_examples :
  split "" ","%char = [""]
  /\ split "h2spec" ","%char = ["h2spec"]
  /\ split "generic,hpack," ","%char = ["generic"; "hpack"; ""].
Proof. repeat split. Qed.

(** ** What [index.mjs] can do *)

(** How [index.mjs] ends at the first suite of its list. *)
Lemma Mjs_main_first_suite (e : env) (suite : string) (rest : list string)
    (w : world) :
  fst (Mjs.main e (suite :: rest) w)
  = match reports e ("target/h2spec-" +:+ suite +:+ ".xml") with
    | inl err => Uncaught err
    | inr _ =>
        match find_check e suite with
        | None => Exit 0
        | Some check =>
            match exec 5 regex_summary (chars (to_string (summary check)))
            with
            | None =>
                Uncaught
                  (TypeError "Cannot read properties of null (reading '1')")
            | Some _ => Uncaught (ReferenceError "spec is not defined")
            end
        end
    end
  /\ comments (snd (Mjs.main e (suite :: rest) w)) = comments w
  /\ created (snd (Mjs.main e (suite :: rest) w)) = created w.
Proof.
  unfold Mjs.main. simpl Mjs.loop. unfold bind, getCurrentResults.
  destruct (reports e _) as [err | l]; simpl.
  - repeat split.
  - unfold Mjs.getReferenceResults.
    destruct (find_check e suite) as [check|]; simpl.
    + destruct (exec 5 regex_summary _) as [m|]; simpl.
      * rewrite Mjs_compare_raises. simpl. repeat split.
      * repeat split.
    + repeat split.
Qed.

(** X12. Whatever the inputs, [index.mjs] never posts a comment and never
    runs to its end: without a token it ends with [process.exit(1)]; with
    a token it ends at the first suite of its list: with the exception of
    the read when the report of that suite cannot be read, otherwise with
    [process.exit(0)] when the suite has no check run, with a [TypeError]
    when the summary of the check run does not match, and with the
    [ReferenceError] of [spec.checkName] when it does; so the
    [process.exit(1)] for a regression is never reached. *)
Theorem run_mjs_never_reports (e : env) (githubToken suitesInput : string)
    (w : world) :
  comments (snd (run_mjs e githubToken suitesInput w)) = comments w
  /\ created (snd (run_mjs e githubToken suitesInput w)) = created w
  /\ (githubToken = "" ->
      fst (run_mjs e githubToken suitesInput w) = Exit 1)
  /\ (githubToken <> "" ->
      exists suite rest,
        split suitesInput ","%char = suite :: rest
        /\ fst (run_mjs e githubToken suitesInput w)
           = match reports e ("target/h2spec-" +:+ suite +:+ ".xml") with
             | inl err => Uncaught err
             | inr _ =>
                 match find_check e suite with
                 | None => Exit 0
                 | Some check =>
                     match exec 5 regex_summary
                             (chars (to_string (summary check))) with
                     | None =>
                         Uncaught
                           (TypeError
                              "Cannot read properties of null (reading '1')")
                     | Some _ =>
                         Uncaught (ReferenceError "spec is not defined")
                     end
                 end
             end).
Proof.
  unfold run_mjs. destruct (String.eqb githubToken "") eqn:Htok.
  - apply String.eqb_eq in Htok.
    split; [reflexivity|]. split; [reflexivity|].
    split; [intros _; reflexivity | intros H; congruence].
  - apply String.eqb_neq in Htok.
    destruct (split suitesInput ","%char) as [|suite rest] eqn:Hsplit;
      [exfalso; exact (split_nonempty _ _ Hsplit)|].
    destruct (Mjs_main_first_suite e suite rest w) as (Hend & Hc & Hk).
    split; [exact Hc|]. split; [exact Hk|].
    split; [intros H; congruence|].
    intros _. exists suite, rest. split; [reflexivity | exact Hend].
Qed.

Lemma run_mjs_never_reports_witness :
  comments (snd (run_mjs sample_env "token" "h2spec,quiet" empty_world))
  = comments empty_world
  /\ created (snd (run_mjs sample_env "token" "h2spec,quiet" empty_world))
     = created empty_world
  /\ ("token" = "" ->
      fst (run_mjs sample_env "token" "h2spec,quiet" empty_world) = Exit 1)
  /\ ("token" <> "" ->
      exists suite rest,
        split "h2spec,quiet" ","%char = suite :: rest
        /\ fst (run_mjs sample_env "token" "h2spec,quiet" empty_world)
           = match reports sample_env ("target/h2spec-" +:+ suite +:+ ".xml")
             with
             | inl err => Uncaught err
             | inr _ =>
                 match find_check sample_env suite with
                 | None => Exit 0
                 | Some check =>
                     match exec 5 regex_summary
                             (chars (to_string (summary check))) with
                     | None =>
                         Uncaught
                           (TypeError
                              "Cannot read properties of null (reading '1')")
                     | Some _ =>
                         Uncaught (ReferenceError "spec is not defined")
                     end
                 end
             end).
Proof.
  apply (run_mjs_never_reports sample_env "token" "h2spec,quiet" empty_world).
Defined.

(** The four ways in which [index.mjs] ends with a token. *)
Example run_mjs_examples :
  fst (run_mjs sample_env "token" "absent,h2spec" empty_world)
  = Uncaught (Error "ENOENT: no such file or directory")
  /\ fst (run_mjs rerun_env "token" "fresh,h2spec" empty_world) = Exit 0
  /\ fst (run_mjs sample_env "token" "malformed" empty_world)
     = Uncaught (TypeError "Cannot read properties of null (reading '1')")
  /\ fst (run_mjs sample_env "token" "h2spec" empty_world)
     = Uncaught (ReferenceError "spec is not defined").
Proof. repeat split; vm_compute; reflexivity. Qed.

(** X7. Whatever the inputs, what [src/unnamed/part_000] publishes agrees
    with the way the run ends: a run that ends early (no token, soft stop,
    fatal summary, unreadable report) publishes neither comment nor check;
    otherwise exactly one check is created, "failure" together with
    [process.exit(1)] or "success" together with a run to the end. *)
Theorem run_ts_check_agrees_with_exit (e : env)
    (githubToken suitesInput : string) (w : world) :
  (fst (run_ts e githubToken suitesInput w) <> Normal tt
   /\ comments (snd (run_ts e githubToken suitesInput w)) = comments w
   /\ created (snd (run_ts e githubToken suitesInput w)) = created w)
  \/ (exists body,
        fst (run_ts e githubToken suitesInput w) = Exit 1
        /\ created (snd (run_ts e githubToken suitesInput w))
           = created w ++ [("failure", body)])
  \/ (exists body,
        fst (run_ts e githubToken suitesInput w) = Normal tt
        /\ created (snd (run_ts e githubToken suitesInput w))
           = created w ++ [("success", body)]).
Proof.
  unfold run_ts. destruct (String.eqb githubToken "").
  - left. simpl. repeat split. discriminate.
  - apply check_agrees_with_exit.
Qed.

(** ** The script of README.md *)

Section ReadmeScript.
Variable e : env.

Lemma lift_compared (suite : string) (current reference : Results)
    (s : Readme.state) :
  compared e suite current reference ->
  Readme.lift (getCurrentResults e ("./" +:+ suite +:+ ".xml")) s
  = (Normal current, s)
  /\ Readme.lift (Ts.getReferenceResults e suite) s = (Normal reference, s).
Proof.
  intros H. destruct (H empty_world) as [Hc Hr]. unfold Readme.lift.
  rewrite Hc, Hr. simpl. rewrite app_nil_r. destruct s; split; reflexivity.
Qed.

Lemma Readme_loop_compared (cur ref : string -> Results)
    (suites : list string) (st : loop_state) (s : Readme.state) :
  (forall x, In x suites -> compared e x (cur x) (ref x)) ->
  Readme.loop e suites st s
  = (Normal (compare_all cur ref suites st),
     {| Readme.out := Readme.out s ++ verdict_entries cur ref suites;
        Readme.started := Readme.started s;
        Readme.completed := Readme.completed s |}).
Proof.
  revert st s. induction suites as [|x suites IH]; intros st s H.
  - simpl. unfold Readme.rret, verdict_entries. simpl. rewrite app_nil_r.
    destruct s; reflexivity.
  - destruct (lift_compared x (cur x) (ref x) s (H x (or_introl eq_refl)))
      as [Hc Hr].
    cbn [Readme.loop]. unfold Readme.rbind at 1. rewrite Hc.
    unfold Readme.rbind at 1. rewrite Hr.
    unfold Readme.rbind at 1.
    assert (Hcmp :
      Readme.compare x (cur x) (ref x) st s
      = (Normal (Ts.compare x (cur x) (ref x) st),
         {| Readme.out :=
              Readme.out s
              ++ [(if regressed cur ref x then Readme.Err else Readme.Info,
                   verdict_line x (cur x) (ref x))];
            Readme.started := Readme.started s;
            Readme.completed := Readme.completed s |})).
    { unfold Readme.compare, Ts.compare, verdict_line, regressed.
      destruct (ngt (failed (cur x)) (failed (ref x))); reflexivity. }
    rewrite Hcmp, IH by (intros y Hy; apply H; right; exact Hy).
    cbn [Readme.out Readme.started Readme.completed compare_all fold_left
         verdict_entries map].
    rewrite <- app_assoc. reflexivity.
Qed.

Lemma lift_state {A : Type} (m : M A) (s s' : Readme.state)
    (c : completion A) :
  Readme.lift m s = (c, s') ->
  Readme.started s' = Readme.started s
  /\ Readme.completed s' = Readme.completed s.
Proof.
  unfold Readme.lift. destruct (m empty_world) as [c' w].
  intros H. injection H as _ <-. split; reflexivity.
Qed.

(** The loop starts and completes no check. *)
Lemma Readme_loop_state (suites : list string) (st : loop_state)
    (s s' : Readme.state) (c : completion loop_state) :
  Readme.loop e suites st s = (c, s') ->
  Readme.started s' = Readme.started s
  /\ Readme.completed s' = Readme.completed s.
Proof.
  revert st s. induction suites as [|x suites IH]; intros st s.
  - intros H. injection H as _ <-. split; reflexivity.
  - cbn [Readme.loop]. unfold Readme.rbind at 1.
    destruct (Readme.lift (getCurrentResults e _) s)
      as [[cur | code | err] s1] eqn:Hc;
      apply lift_state in Hc; destruct Hc as [Hc1 Hc2];
      try (intros H; injection H as _ <-; split; assumption).
    unfold Readme.rbind at 1.
    destruct (Readme.lift (Ts.getReferenceResults e x) s1)
      as [[r | code | err] s2] eqn:Hr;
      apply lift_state in Hr; destruct Hr as [Hr1 Hr2];
      try (intros H; injection H as _ <-; split; congruence).
    unfold Readme.rbind at 1.
    assert (Hcmp : exists st' s3,
               Readme.compare x cur r st s2 = (Normal st', s3)
               /\ Readme.started s3 = Readme.started s2
               /\ Readme.completed s3 = Readme.completed s2).
    { unfold Readme.compare.
      destruct (ngt (failed cur) (failed r));
        eexists; eexists; repeat split. }
    destruct Hcmp as (st' & s3 & -> & H31 & H32).
    intros H. apply IH in H. destruct H as [H1 H2]. split; congruence.
Qed.

End ReadmeScript.

Lemma getCheckRunContext_state (ctx : Readme.context) (s s' : Readme.state)
    (c : completion (string * Z)) :
  Readme.getCheckRunContext ctx s = (c, s') ->
  Readme.started s' = Readme.started s
  /\ Readme.completed s' = Readme.completed s
  /\ (usable_context ctx -> exists head_sha id, c = Normal (head_sha, id))
  /\ forall code, c <> Exit code.
Proof.
  unfold Readme.getCheckRunContext, usable_context.
  destruct (String.eqb (Readme.eventName ctx) "workflow_run") eqn:Hev.
  - apply String.eqb_eq in Hev.
    destruct (Readme.workflow_run ctx) as [[head_commit_id id]|];
      intros H; injection H as <- <-; repeat split; eauto;
      try discriminate.
    intros Hok. exfalso. apply (Hok Hev). reflexivity.
  - destruct (Readme.pull_request ctx);
      intros H; injection H as <- <-; repeat split; eauto; discriminate.
Qed.

(** X13. In the script of README.md, when the event is usable and every
    suite yields its two records, the run always goes to its end (status
    0), also when a suite regressed: the regression shows only in the
    conclusion "failure" of the check run, which is completed exactly once
    with one line per suite, and in the lines written through
    [core.error].  The check run is created once, for the commit that
    [getCheckRunContext] chooses: [head_commit.id] of the triggering
    workflow for a [workflow_run] event, otherwise the head of the pull
    request when the event has one, and [context.sha] when it has none. *)
Theorem Readme_reports_through_check (e : env) (cur ref : string -> Results)
    (githubToken suitesInput : string) (ctx : Readme.context) (check_id : Z)
    (s : Readme.state) :
  githubToken <> "" ->
  usable_context ctx ->
  (forall x, In x (split suitesInput ","%char) ->
             compared e x (cur x) (ref x)) ->
  exists head_sha lines,
    Readme.main e githubToken suitesInput ctx check_id s
    = (Normal tt,
       {| Readme.out :=
            Readme.out s ++ lines
            ++ [(Readme.Info,
                 "Check created, id: " +:+ number_to_string (Int check_id))]
            ++ verdict_entries cur ref (split suitesInput ","%char)
            ++ [(Readme.Info, "Check updated")];
          Readme.started := Readme.started s ++ [head_sha];
          Readme.completed :=
            Readme.completed s ++
            [(check_id,
              if existsb (regressed cur ref) (split suitesInput ","%char)
              then "failure" else "success",
              report_body cur ref (split suitesInput ","%char))] |})
    /\ (Readme.eventName ctx = "workflow_run" ->
        exists id, Readme.workflow_run ctx = Some (head_sha, id))
    /\ (Readme.eventName ctx <> "workflow_run" ->
        match Readme.pull_request ctx with
        | Some pr_head_sha => head_sha = pr_head_sha
        | None => head_sha = Readme.sha ctx
        end)
    /\ Forall (fun l => fst l = Readme.Info) lines.
Proof.
  intros Htok Hctx Hall. apply String.eqb_neq in Htok.
  unfold Readme.main. rewrite Htok. unfold Readme.rbind at 1.
  assert (Hget : exists head_sha id lines,
    Readme.getCheckRunContext ctx s
    = (Normal (head_sha, id),
       {| Readme.out := Readme.out s ++ lines;
          Readme.started := Readme.started s;
          Readme.completed := Readme.completed s |})
    /\ (Readme.eventName ctx = "workflow_run" ->
        exists id, Readme.workflow_run ctx = Some (head_sha, id))
    /\ (Readme.eventName ctx <> "workflow_run" ->
        match Readme.pull_request ctx with
        | Some pr_head_sha => head_sha = pr_head_sha
        | None => head_sha = Readme.sha ctx
        end)
    /\ Forall (fun l => fst l = Readme.Info) lines).
  { unfold Readme.getCheckRunContext, usable_context in *.
    destruct (String.eqb (Readme.eventName ctx) "workflow_run") eqn:Hev.
    - apply String.eqb_eq in Hev. specialize (Hctx Hev).
      destruct (Readme.workflow_run ctx) as [[h i]|]; [|congruence].
      exists h, i. eexists. split; [reflexivity|].
      split; [intros _; exists i; reflexivity|].
      split; [intros Hne; congruence|].
      repeat constructor.
    - apply String.eqb_neq in Hev.
      destruct (Readme.pull_request ctx) as [h|].
      + exists h, (Readme.runId ctx). eexists. split; [reflexivity|].
        split; [intros Heq; congruence|].
        split; [intros _; reflexivity|].
        repeat constructor.
      + exists (Readme.sha ctx), (Readme.runId ctx), [].
        split; [unfold Readme.rret; rewrite app_nil_r; destruct s;
                reflexivity|].
        split; [intros Heq; congruence|].
        split; [intros _; reflexivity | constructor]. }
  destruct Hget as (head_sha & id & lines & -> & Hwf & Hpr & Hinfo).
  exists head_sha, lines.
  split; [|split; [exact Hwf | split; [exact Hpr | exact Hinfo]]].
  unfold Readme.rbind at 1. unfold Readme.checks_create at 1.
  unfold Readme.rbind at 1. unfold Readme.emit at 1.
  unfold Readme.rbind at 1.
  rewrite (Readme_loop_compared e cur ref _ initial_state _ Hall).
  pose proof (compare_all_flag cur ref (split suitesInput ","%char)
                initial_state) as Hflag.
  pose proof (compare_all_lines cur ref (split suitesInput ","%char)
                initial_state) as Hlines.
  simpl in Hflag, Hlines. rewrite Hflag, Hlines.
  unfold Readme.rbind, Readme.checks_update, Readme.emit, report_body.
  cbn [Readme.out Readme.started Readme.completed fst].
  rewrite <- !app_assoc. reflexivity.
Qed.

Lemma Readme_reports_through_check_witness :
  exists head_sha lines,
    Readme.main sample_env "token" "quiet,h2spec" pull_request_context 5
                Readme.empty_state
    = (Normal tt,
       {| Readme.out :=
            Readme.out Readme.empty_state ++ lines
            ++ [(Readme.Info,
                 "Check created, id: " +:+ number_to_string (Int 5))]
            ++ verdict_entries sample_current sample_reference
                 (split "quiet,h2spec" ","%char)
            ++ [(Readme.Info, "Check updated")];
          Readme.started := Readme.started Readme.empty_state ++ [head_sha];
          Readme.completed :=
            Readme.completed Readme.empty_state ++
            [(5,
              if existsb (regressed sample_current sample_reference)
                         (split "quiet,h2spec" ","%char)
              then "failure" else "success",
              report_body sample_current sample_reference
                          (split "quiet,h2spec" ","%char))] |})
    /\ (Readme.eventName pull_request_context = "workflow_run" ->
        exists id,
          Readme.workflow_run pull_request_context = Some (head_sha, id))
    /\ (Readme.eventName pull_request_context <> "workflow_run" ->
        match Readme.pull_request pull_request_context with
        | Some pr_head_sha => head_sha = pr_head_sha
        | None => head_sha = Readme.sha pull_request_context
        end)
    /\ Forall (fun l => fst l = Readme.Info) lines.
Proof.
  apply (Readme_reports_through_check sample_env sample_current
           sample_reference "token" "quiet,h2spec" pull_request_context 5
           Readme.empty_state).
  - discriminate.
  - intros H. discriminate.
  - intros x [<- | [<- | []]] w; split; vm_compute; reflexivity.
Defined.

(** The commit of the check run for the three kinds of event. *)
Example Readme_chosen_commit :
  Readme.started
    (snd (Readme.main sample_env "token" "quiet" pull_request_context 5
            Readme.empty_state)) = ["9be01d7"]
  /\ Readme.started
       (snd (Readme.main sample_env "token" "quiet" push_context 5
               Readme.empty_state)) = ["4f2a9c1"]
  /\ Readme.started
       (snd (Readme.main sample_env "token" "quiet" workflow_context 5
               Readme.empty_state)) = ["c07d5e2"].
Proof. repeat split; vm_compute; reflexivity. Qed.

Lemma Readme_main_cases (e : env) (githubToken suitesInput : string)
    (ctx : Readme.context) (check_id : Z) (s s' : Readme.state)
    (c : completion unit) :
  Readme.main e githubToken suitesInput ctx check_id s = (c, s') ->
  (c = Normal tt
   /\ exists head_sha conclusion body,
        Readme.started s' = Readme.started s ++ [head_sha]
        /\ Readme.completed s'
           = Readme.completed s ++ [(check_id, conclusion, body)])
  \/ (c <> Normal tt /\ Readme.completed s' = Readme.completed s).
Proof.
  unfold Readme.main. destruct (String.eqb githubToken "").
  - intros H. injection H as <- <-. right. split; [discriminate | reflexivity].
  - unfold Readme.rbind at 1.
    destruct (Readme.getCheckRunContext ctx s)
      as [[[head_sha id] | code | err] s1] eqn:Hget;
      apply getCheckRunContext_state in Hget;
      destruct Hget as (Hs1 & Hc1 & _ & Hne).
    + unfold Readme.rbind at 1. unfold Readme.checks_create at 1.
      unfold Readme.rbind at 1. unfold Readme.emit at 1.
      unfold Readme.rbind at 1.
      destruct (Readme.loop e _ initial_state _)
        as [[st | code | err] s2] eqn:Hloop;
        apply Readme_loop_state in Hloop; destruct Hloop as [Hs2 Hc2];
        cbn [Readme.started Readme.completed fst] in Hs2, Hc2.
      * unfold Readme.rbind, Readme.checks_update, Readme.emit.
        intros H. injection H as <- <-. left.
        cbn [Readme.started Readme.completed].
        split; [reflexivity|].
        exists head_sha,
          (if regressionsDetected st then "failure" else "success"),
          (join newline (outputLines st)).
        rewrite Hs2, Hc2, Hs1, Hc1. split; reflexivity.
      * intros H. injection H as <- <-. right.
        split; [discriminate | congruence].
      * intros H. injection H as <- <-. right.
        split; [discriminate | congruence].
    + exfalso. exact (Hne code eq_refl).
    + intros H. injection H as <- <-. right.
      split; [discriminate | exact Hc1].
Qed.

(** X14. In the script of README.md a run that does not go to its end
    (missing token, unusable event, soft stop, fatal summary, unreadable
    report) never completes a check run: a check run it has created stays
    in progress.  A run that goes to its end has created one check run and
    completed the one with the given id, once. *)
Theorem Readme_early_end_leaves_check (e : env)
    (githubToken suitesInput : string) (ctx : Readme.context) (check_id : Z)
    (s : Readme.state) :
  (fst (Readme.main e githubToken suitesInput ctx check_id s) = Normal tt
   /\ exists head_sha conclusion body,
        Readme.started
          (snd (Readme.main e githubToken suitesInput ctx check_id s))
        = Readme.started s ++ [head_sha]
        /\ Readme.completed
             (snd (Readme.main e githubToken suitesInput ctx check_id s))
           = Readme.completed s ++ [(check_id, conclusion, body)])
  \/ (fst (Readme.main e githubToken suitesInput ctx check_id s) <> Normal tt
      /\ Readme.completed
           (snd (Readme.main e githubToken suitesInput ctx check_id s))
         = Readme.completed s).
Proof.
  destruct (Readme.main e githubToken suitesInput ctx check_id s)
    as [c s'] eqn:Hmain.
  exact (Readme_main_cases _ _ _ _ _ _ _ _ Hmain).
Qed.

(** A soft stop after the check run was created. *)
Example Readme_soft_stop :
  Readme.main sample_env "token" "quiet,fresh" push_context 5
              Readme.empty_state
  = (Exit 0,
     {| Readme.out :=
          [(Readme.Info, "Check created, id: 5");
           (Readme.Info,
            "No regression in quiet: failed count unchanged (0 passed, 0 failed)");
           (Readme.Log, "No " +:+ JSON_stringify "fresh" +:+ " check found")];
        Readme.started := ["4f2a9c1"];
        Readme.completed := [] |}).
Proof. vm_compute. reflexivity. Qed.

(** ** Witnesses of earlier lemmas *)

Lemma Ts_verdict_line_witness :
  outputLines
    (Ts.compare "h2spec" (mkResults (Int 94) (Int 74) (Int 20) (Int 0))
                (mkResults (Int 94) (Int 72) (Int 22) (Int 0)) initial_state)
  = outputLines initial_state ++
    [ if 22 <? 20 then
        "Regression detected in " +:+ "h2spec" +:+ ": "
        +:+ number_to_string (Int 20) +:+ " > " +:+ number_to_string (Int 22)
      else
        "No regression in " +:+ "h2spec" +:+ ": failed count "
        +:+ (if 20 =? 22 then "unchanged"
             else "-" +:+ number_to_string (nsub (Int 22) (Int 20)))
        +:+ " ("
        +:+ number_to_string
              (passed (mkResults (Int 94) (Int 74) (Int 20) (Int 0)))
        +:+ " passed, " +:+ number_to_string (Int 20) +:+ " failed)" ]
  /\ (Z.abs (22 - 20) <= 2 ^ 53 -> nsub (Int 22) (Int 20) = Int (22 - 20)).
Proof.
  apply (Ts_verdict_line "h2spec" (mkResults (Int 94) (Int 74) (Int 20) (Int 0))
           (mkResults (Int 94) (Int 72) (Int 22) (Int 0)) initial_state 20 22);
    reflexivity.
Defined.

Lemma Ts_summary_fatal_witness :
  Ts.main sample_env (["quiet"] ++ "malformed" :: ["h2spec"]) empty_world
  = (Exit 1,
     {| console :=
          console empty_world
          ++ summary_diagnostics "malformed"
               {| name := "malformed"; summary := Str "h2spec run cancelled" |};
        comments := comments empty_world;
        created := created empty_world |}).
Proof.
  apply (Ts_summary_fatal sample_env ["quiet"] ["h2spec"] "malformed"
           {| name := "malformed"; summary := Str "h2spec run cancelled" |}
           [] empty_world).
  - intros s Hs. exists (sample_current s), (sample_reference s).
    destruct Hs as [<- | []]; intros w; split; vm_compute; reflexivity.
  - reflexivity.
  - reflexivity.
  - right. vm_compute. reflexivity.
Defined.

Lemma Mjs_missing_reference_soft_stop_witness :
  Mjs.main rerun_env ("fresh" :: ["h2spec"]) empty_world
  = (Exit 0,
     {| console := console empty_world
                   ++ ["No " +:+ JSON_stringify "fresh" +:+ " check found"];
        comments := comments empty_world;
        created := created empty_world |}).
Proof.
  apply (Mjs_missing_reference_soft_stop rerun_env ["h2spec"] "fresh" []
           empty_world); reflexivity.
Defined.
